(** * Selector de Opciones: a shallow embedding of [OpcionesTEST.py]

    The program is a Streamlit script: every interaction re-runs it from
    top to bottom.  One run is modelled as a computation over a [World]
    that records, in call order, every framework call ([st.*]) and every
    provider call ([yf.*]), together with the two [st.cache_data] stores
    that survive from one run to the next.

    - Python floats are IEEE binary64 numbers: Rocq's primitive [float].
    - Exceptions deriving from [Exception] are values of [exn]; [st.stop()]
      is the separate outcome [Stopped], which no [except Exception] sees.
    - The provider (yfinance) is a record of functions that either return
      a table or raise; tables are lists of rows holding the columns the
      script reads.
    - What the widgets return on a run is the record [Inputs]. *)

From Stdlib Require Import ZArith Floats Lia.
From stdpp Require Import base option list strings pretty gmap sorting.

Set Default Proof Using "Type".
Local Open Scope Z_scope.

(* ================================================================= *)
(** * Python numbers *)

(** [int -> float] conversion, as done by [int * float]: the nearest
    binary64 value (exact for the small integers used here). *)
Definition float_of_int (z : Z) : float :=
  SF2Prim (binary_normalize prec emax z 0 false).

(** The integer nearest to [num / den] ([den > 0]), ties to even. *)
Definition div_half_even (num den : Z) : Z :=
  let q := num / den in
  let r := num mod den in
  match 2 * r ?= den with
  | Lt => q
  | Gt => q + 1
  | Eq => if Z.even q then q else q + 1
  end.

(** The builtin [round(x, 2)] on a float: the exact binary value of [x]
    is rounded to the nearest multiple of 1/100, ties to even, and the
    nearest float to that decimal is returned.  Zeros, infinities, NaN
    and floats that are already integers come back unchanged. *)
Definition round2 (x : float) : float :=
  match Prim2SF x with
  | S754_finite s m e =>
      if 0 <=? e then x
      else
        match div_half_even (Z.pos m * 100) (2 ^ (- e)) with
        | Z.pos n =>
            SF2Prim (SFdiv prec emax (S754_finite s n 0) (S754_finite false 100 0))
        | _ => if s then neg_zero else zero
        end
  | _ => x
  end.

(** Python's [==] on floats. *)
Definition float_eq (x y : float) : bool := PrimFloat.eqb x y.

(** Two floats denote the same number: they are the same object, or
    Python's [==] holds between them (the two zeros). *)
Definition mismo_valor (x y : float) : Prop :=
  x = y \/ float_eq x y = true.

(* ================================================================= *)
(** * Exceptions, tables, the provider *)

(** An instance of a class deriving from [Exception]: its class name and
    [str(e)]. *)
Record exn : Type := Exn { exn_class : string; exn_msg : string }.

Definition IndexError (msg : string) : exn := Exn "IndexError" msg.
Definition ValueError (msg : string) : exn := Exn "ValueError" msg.

Definition is_IndexError (e : exn) : bool := String.eqb (exn_class e) "IndexError".

(** [except Exception] handles every [exn]. *)
Definition is_Exception (e : exn) : bool := true.

Inductive result (A : Type) : Type :=
| Ok (a : A)
| Err (e : exn).
Arguments Ok {A} a.
Arguments Err {A} e.

(** A row of an options-chain table (the columns the script reads). *)
Record option_row : Type := OptionRow {
  contractSymbol : string;
  strike : float;
  lastPrice : float;
  bid : float;
  ask : float;
  impliedVolatility : float
}.

(** A row of a price-history table. *)
Record history_row : Type := HistoryRow {
  Open : float;
  High : float;
  Low : float;
  Close : float
}.

(** [df.empty] *)
Definition df_empty {A} (df : list A) : bool :=
  match df with [] => true | _ :: _ => false end.

(** [pd.DataFrame()] *)
Definition DataFrame {A} : list A := [].

(** What [Ticker.option_chain(date)] returns. *)
Record OptionChain : Type := Chain {
  calls : list option_row;
  puts : list option_row
}.

(** The market-data provider behind [yf.Ticker(symbol)]: one-argument
    lookups keyed by the ticker symbol. *)
Record Provider : Type := {
  provider_history : string -> string -> result (list history_row);
  provider_options : string -> result (list string);
  provider_option_chain : string -> string -> result OptionChain
}.

(** A [yf.Ticker] object: it holds its symbol; data are fetched on use. *)
Record Ticker : Type := MkTicker { ticker : string }.

(* ================================================================= *)
(** * Framework calls and the world *)

Inductive mensaje : Type :=
| msg_ticker_no_valido (ticker_simbolo : string)
| msg_precio_cierre (ticker_simbolo : string) (precio_actual : float)
| msg_sin_opciones (ticker_simbolo : string)
| msg_buscando (tipo : option string) (ticker_simbolo : string)
    (fecha : option string) (strike_elegido : option float)
| msg_sin_coincidencia
| msg_opcion_encontrada
| msg_sin_historial
| msg_error_opcion (e : string).

Inductive metrica : Type :=
| UltimoPrecio | Bid | Ask | VolatilidadImplicita.

Inductive titulo : Type :=
| ElegirStrike | ElegirVencimiento | ElegirTipo | MetricasClave | HistorialPrecio.

Inductive event : Type :=
(* streamlit *)
| st_set_page_config
| st_title
| st_text_input
| st_error (m : mensaje)
| st_success (m : mensaje)
| st_warning (m : mensaje)
| st_info (m : mensaje)
| st_columns (n : nat)
| st_subheader (t : titulo)
| st_number_input (precio_actual : float)   (* value=round(precio_actual, -1) *)
| st_selectbox_strike (options : list float) (index : nat)
| st_selectbox_fecha (options : list string)
| st_selectbox_tipo (options : list string)
| st_button
| st_dataframe (rows : list option_row)
| st_metric (label : metrica) (value : float)
| st_line_chart (serie : list float)
| st_markdown
| st_write
(* yfinance *)
| yf_Ticker (symbol : string)
| yf_history (symbol : string) (period : string)
| yf_options (symbol : string)
| yf_option_chain (symbol : string) (fecha : string).

(** An [st.cache_data] store: for each key the time of the call that
    filled it and the value it returned. *)
Abbreviation cache V := (gmap string (Z * V)).

Record World : Type := MkWorld {
  trace : list event;
  cache_option_dataframes : cache (list option_row * list option_row);
  cache_option_history : cache (list history_row)
}.

Definition set_trace (t : list event) (w : World) : World :=
  MkWorld t (cache_option_dataframes w) (cache_option_history w).
Definition set_cache_option_dataframes
    (c : cache (list option_row * list option_row)) (w : World) : World :=
  MkWorld (trace w) c (cache_option_history w).
Definition set_cache_option_history
    (c : cache (list history_row)) (w : World) : World :=
  MkWorld (trace w) (cache_option_dataframes w) c.

(** What the widgets hand to the script on one run: the value of the
    text box (the typed text, "AAPL" before any is typed), the value of
    the number box (the typed number, [round(precio_actual, -1)] before
    any is typed), the position picked in each select box ([None] while
    it is untouched), and whether the button was pressed. *)
Record Inputs : Type := {
  texto_ticker : string;
  valor_strike : float;
  pick_strike : option nat;
  pick_fecha : option nat;
  pick_tipo : option nat;
  boton_buscar : bool
}.

(* ================================================================= *)
(** * The script monad *)

Inductive outcome (A : Type) : Type :=
| Normal (a : A)
| Raised (e : exn)
| Stopped.
Arguments Normal {A} a.
Arguments Raised {A} e.
Arguments Stopped {A}.

Definition M (A : Type) : Type := World -> outcome A * World.

Definition ret {A} (a : A) : M A := fun w => (Normal a, w).

Definition bind {A B} (m : M A) (k : A -> M B) : M B :=
  fun w =>
    match m w with
    | (Normal a, w') => k a w'
    | (Raised e, w') => (Raised e, w')
    | (Stopped, w') => (Stopped, w')
    end.

Declare Scope script_scope.
Delimit Scope script_scope with script.
Bind Scope script_scope with M.
Notation "'do' x <- m ; k" := (bind m (fun x => k))
  (at level 10, x name, m at level 100, k at level 200,
   format "'[v' 'do'  x  <-  m ; '/' k ']'") : script_scope.
Notation "'do' ' p <- m ; k" := (bind m (fun x => match x with p => k end))
  (at level 10, p pattern, m at level 100, k at level 200) : script_scope.
Notation "m ;; k" := (bind m (fun _ => k))
  (at level 100, k at level 200, right associativity, only parsing) : script_scope.
Local Open Scope script_scope.

Definition raise {A} (e : exn) : M A := fun w => (Raised e, w).

(** [st.stop()] *)
Definition st_stop {A} : M A := fun w => (Stopped, w).

Definition emit (e : event) : M unit :=
  fun w => (Normal tt, set_trace (trace w ++ [e]) w).

(** [try: m  except <class> as e: h e] *)
Definition try_except {A} (m : M A) (handles : exn -> bool) (h : exn -> M A) : M A :=
  fun w =>
    match m w with
    | (Raised e, w') => if handles e then h e w' else (Raised e, w')
    | r => r
    end.

(** A provider call either returns or raises. *)
Definition lift {A} (r : result A) : M A :=
  match r with
  | Ok a => ret a
  | Err e => raise e
  end.

(** [for x in xs: s = body x s] *)
Fixpoint for_each {A S} (xs : list A) (body : A -> S -> M S) (s : S) : M S :=
  match xs with
  | [] => ret s
  | x :: xs' => do s' <- body x s; for_each xs' body s'
  end.

(** [xs[i]] for [i >= 0] *)
Definition getitem {A} (xs : list A) (i : nat) : M A :=
  match xs !! i with
  | Some x => ret x
  | None => raise (IndexError "index out of range")
  end.

(** [s.iloc[0]] and [s.iloc[-1]] *)
Definition iloc_0 {A} (s : list A) : M A :=
  match head s with
  | Some x => ret x
  | None => raise (IndexError "single positional indexer is out-of-bounds")
  end.
Definition iloc_last {A} (s : list A) : M A :=
  match last s with
  | Some x => ret x
  | None => raise (IndexError "single positional indexer is out-of-bounds")
  end.

Fixpoint range_from (fuel i stop step : nat) : list nat :=
  match fuel with
  | O => []
  | S fuel' =>
      if (i <? stop)%nat then i :: range_from fuel' (i + step) stop step else []
  end.

(** [range(start, stop, step)] for non-negative arguments. *)
Definition range (start stop step : nat) : M (list nat) :=
  match step with
  | O => raise (ValueError "range() arg 3 must not be zero")
  | S _ => ret (range_from stop start stop step)
  end.

(** [not xs] for a tuple or list. *)
Definition es_vacia {A} (xs : list A) : bool :=
  match xs with [] => true | _ :: _ => false end.

(** Truth value of a string, and of [None] or a string. *)
Definition truthy (s : string) : bool := negb (String.eqb s "").
Definition truthy_opt (o : option string) : bool :=
  match o with
  | Some s => truthy s
  | None => false
  end.

(** [st.selectbox(label, options, index)]: the option the user picked, the
    one at [index] while nothing was picked, [None] without options. *)
Definition selectbox {A} (options : list A) (index : nat) (pick : option nat) : option A :=
  match pick ≫= (options !!.) with
  | Some x => Some x
  | None => options !! index
  end.

(** [df['strike'] == v]: the boolean series of a column compared with a
    scalar; comparing with [None] is false everywhere. *)
Definition series_eq (col : list float) (v : option float) : list bool :=
  map (fun x => match v with Some s => float_eq x s | None => false end) col.

(** [df[mask]]: the rows where the boolean series holds. *)
Fixpoint bool_index {A} (df : list A) (mask : list bool) : list A :=
  match df, mask with
  | r :: df', b :: mask' =>
      if b then r :: bool_index df' mask' else bool_index df' mask'
  | _, _ => []
  end.

(** [tipo_opcion_elegido == "Call"] *)
Definition es_call (tipo : option string) : bool :=
  match tipo with
  | Some s => String.eqb s "Call"
  | None => false
  end.

(* ================================================================= *)
(** * The script *)

Section Script.

(** [str.upper] *)
Variable upper : string -> string.
(** The provider the run talks to, and the time of the run in seconds. *)
Variable yf : Provider.
Variable now : Z.
Variable ui : Inputs.

(** ** yfinance *)

Definition new_Ticker (symbol : string) : M Ticker :=
  emit (yf_Ticker symbol);; ret (MkTicker symbol).

Definition Ticker_history (t : Ticker) (period : string) : M (list history_row) :=
  emit (yf_history (ticker t) period);;
  lift (provider_history yf (ticker t) period).

Definition Ticker_options (t : Ticker) : M (list string) :=
  emit (yf_options (ticker t));;
  lift (provider_options yf (ticker t)).

Definition Ticker_option_chain (t : Ticker) (fecha : string) : M OptionChain :=
  emit (yf_option_chain (ticker t) fecha);;
  lift (provider_option_chain yf (ticker t) fecha).

(** ** [@st.cache_data(ttl=...)]

    The decorated function is looked up under a key made of its hashed
    arguments; a stored value younger than [ttl] seconds is returned
    without running the function, otherwise the function runs and what it
    returns is stored with the time of the call.  A call that raises
    stores nothing. *)
Definition cache_lookup {V} (ttl : Z) (c : cache V) (key : string) : option V :=
  match c !! key with
  | Some (t0, v) => if now <? t0 + ttl then Some v else None
  | None => None
  end.

Definition cache_data {V} (get : World -> cache V) (set : cache V -> World -> World)
    (ttl : Z) (key : string) (func : M V) : M V :=
  fun w =>
    match cache_lookup ttl (get w) key with
    | Some v => (Normal v, w)
    | None =>
        match func w with
        | (Normal v, w') => (Normal v, set (<[key := (now, v)]> (get w')) w')
        | r => r
        end
    end.

(** ** Funciones auxiliares (lines 13-38) *)

Definition get_ticker_object (ticker_simbolo : string) : M Ticker :=
  new_Ticker ticker_simbolo.

(** The parameter [_ticker] starts with an underscore: [st.cache_data]
    leaves such parameters out of the key, which is [fecha] alone. *)
Definition get_option_dataframes (_ticker : Ticker) (fecha : string)
  : M (list option_row * list option_row) :=
  cache_data cache_option_dataframes set_cache_option_dataframes 3600 fecha
    (do chain <- Ticker_option_chain _ticker fecha;
     ret (calls chain, puts chain)).

Definition get_option_history (contract_symbol : string) : M (list history_row) :=
  cache_data cache_option_history set_cache_option_history 3600 contract_symbol
    (try_except
       (do option_ticker <- new_Ticker contract_symbol;
        Ticker_history option_ticker "1mo")
       is_Exception
       (fun _ => ret DataFrame)).

(** ** Comprobar si el ticker es valido (lines 49-53) *)
Definition comprobar_ticker (ticker_simbolo : string) (accion : Ticker) : M float :=
  try_except
    (do df <- Ticker_history accion "1d";
     iloc_last (map Close df))
    is_IndexError
    (fun _ =>
       emit (st_error (msg_ticker_no_valido ticker_simbolo));;
       st_stop).

(** ** Seleccion del precio strike (lines 61-66) *)
Definition strikes_disponibles (strike_central : float) : list float :=
  map (fun i : nat =>
         round2 (strike_central + float_of_int (Z.of_nat i - 10) * 0.5))
      (seq 0 21).

Definition elegir_strike (precio_actual : float) : M (option float) :=
  emit (st_subheader ElegirStrike);;
  emit (st_number_input precio_actual);;
  let strike_central := valor_strike ui in
  let strikes := strikes_disponibles strike_central in
  emit (st_selectbox_strike strikes 10);;
  ret (selectbox strikes 10 (pick_strike ui)).

(** ** Seleccion de la fecha de vencimiento (lines 69-84) *)
Definition fechas_a_mostrar (todas_las_fechas : list string) : M (list string) :=
  let fechas := take 10 todas_las_fechas in
  if (10 <? length todas_las_fechas)%nat then
    let fechas_lejanas := drop 10 todas_las_fechas in
    let paso := Nat.max 1 (length fechas_lejanas / 10) in
    do indices <- range 0 (length fechas_lejanas) paso;
    for_each indices
      (fun i fechas =>
         if (length fechas <? 20)%nat then
           do fecha <- getitem fechas_lejanas i;
           ret (fechas ++ [fecha])
         else ret fechas)
      fechas
  else ret fechas.

Definition elegir_fecha (ticker_simbolo : string) (accion : Ticker) : M (option string) :=
  emit (st_subheader ElegirVencimiento);;
  do todas_las_fechas <- Ticker_options accion;
  if es_vacia todas_las_fechas then
    emit (st_warning (msg_sin_opciones ticker_simbolo));;
    ret None
  else
    do fechas <- fechas_a_mostrar todas_las_fechas;
    emit (st_selectbox_fecha fechas);;
    ret (selectbox fechas 0 (pick_fecha ui)).

(** ** Seleccion del tipo de opcion (lines 87-89) *)
Definition elegir_tipo : M (option string) :=
  emit (st_subheader ElegirTipo);;
  emit (st_selectbox_tipo ["Call"; "Put"]%string);;
  ret (selectbox ["Call"; "Put"]%string 0 (pick_tipo ui)).

(** ** Buscar y mostrar resultados (lines 92-133) *)

(** [datos[datos['strike'] == strike_elegido]] (line 101) *)
Definition opcion_seleccionada (datos : list option_row) (strike_elegido : option float)
  : list option_row :=
  bool_index datos (series_eq (map strike datos) strike_elegido).

(** Lines 117-129. *)
Definition mostrar_historial (seleccion : list option_row) : M unit :=
  emit (st_subheader HistorialPrecio);;
  do contract_symbol <- iloc_0 (map contractSymbol seleccion);
  do history_df <- get_option_history contract_symbol;
  if negb (df_empty history_df) then
    emit (st_line_chart (map Close history_df))
  else
    emit (st_warning msg_sin_historial).

(** Lines 99-129: what is done with the two fetched tables. *)
Definition mostrar_opcion (tablas : list option_row * list option_row)
    (tipo_opcion_elegido : option string) (strike_elegido : option float) : M unit :=
  let '(calls, puts) := tablas in
  let datos := if es_call tipo_opcion_elegido then calls else puts in
  let seleccion := opcion_seleccionada datos strike_elegido in
  if df_empty seleccion then
    emit (st_warning msg_sin_coincidencia)
  else
    emit (st_success msg_opcion_encontrada);;
    emit (st_dataframe seleccion);;
    emit (st_subheader MetricasClave);;
    emit (st_columns 4);;
    do v1 <- iloc_0 (map lastPrice seleccion);
    emit (st_metric UltimoPrecio v1);;
    do v2 <- iloc_0 (map bid seleccion);
    emit (st_metric Bid v2);;
    do v3 <- iloc_0 (map ask seleccion);
    emit (st_metric Ask v3);;
    do v4 <- iloc_0 (map impliedVolatility seleccion);
    emit (st_metric VolatilidadImplicita v4);;
    mostrar_historial seleccion.

(** The body of the [try] (lines 96-129). *)
Definition buscar_y_mostrar (accion : Ticker) (fecha_elegida : string)
    (tipo_opcion_elegido : option string) (strike_elegido : option float) : M unit :=
  do tablas <- get_option_dataframes accion fecha_elegida;
  mostrar_opcion tablas tipo_opcion_elegido strike_elegido.

(** The [try ... except Exception as e] (lines 95-133). *)
Definition bloque_busqueda (accion : Ticker) (fecha_elegida : string)
    (tipo_opcion_elegido : option string) (strike_elegido : option float) : M unit :=
  try_except
    (buscar_y_mostrar accion fecha_elegida tipo_opcion_elegido strike_elegido)
    is_Exception
    (fun e => emit (st_error (msg_error_opcion (exn_msg e)))).

(** Line 92 on: the button, its guard and what it runs. *)
Definition boton (ticker_simbolo : string) (accion : Ticker)
    (strike_elegido : option float) (fecha_elegida : option string)
    (tipo_opcion_elegido : option string) : M unit :=
  do pulsado <- (emit st_button;; ret (boton_buscar ui));
  if pulsado && truthy_opt fecha_elegida then
    match fecha_elegida with
    | Some fecha =>
        emit (st_info (msg_buscando tipo_opcion_elegido ticker_simbolo
                         fecha_elegida strike_elegido));;
        bloque_busqueda accion fecha tipo_opcion_elegido strike_elegido
    | None => ret tt
    end
  else ret tt.

(** Lines 46-133: the body of [if ticker_simbolo:]. *)
Definition cuerpo (ticker_simbolo : string) : M unit :=
  do accion <- get_ticker_object ticker_simbolo;
  do precio_actual <- comprobar_ticker ticker_simbolo accion;
  emit (st_success (msg_precio_cierre ticker_simbolo precio_actual));;
  emit (st_columns 3);;
  do strike_elegido <- elegir_strike precio_actual;
  do fecha_elegida <- elegir_fecha ticker_simbolo accion;
  do tipo_opcion_elegido <- elegir_tipo;
  boton ticker_simbolo accion strike_elegido fecha_elegida tipo_opcion_elegido.

(** The symbol every lookup of the run is made with (line 43). *)
Definition ticker_simbolo : string := upper (texto_ticker ui).

(** One run of the script, top to bottom. *)
Definition script : M unit :=
  emit st_set_page_config;;
  emit st_title;;
  emit st_text_input;;
  (if truthy ticker_simbolo then cuerpo ticker_simbolo else ret tt);;
  emit st_markdown;;
  emit st_write.

End Script.

(* ================================================================= *)
(** * Reference definitions the script is compared with *)

(** The positions [0, paso, 2*paso, ...] below [n]. *)
Definition multiplos (paso n : nat) : list nat :=
  filter (fun i => (i mod paso = 0)%nat) (seq 0 n).

(** The entries of [xs] at the positions [pos]. *)
Definition en_posiciones {A} (xs : list A) (pos : list nat) : list A :=
  omap (fun i => xs !! i) pos.

(** Every [paso]-th entry of [xs], starting with the first. *)
Definition muestras {A} (paso : nat) (xs : list A) : list A :=
  en_posiciones xs (multiplos paso (length xs)).

(** The stride of the sampling for a remainder of [n] dates. *)
Definition paso_de (n : nat) : nat := Nat.max 1 (n / 10).

(** The thinned list in words: the first 10 dates, then at most 10 dates
    sampled from the rest at the stride of the rest. *)
Definition fechas_reducidas (todas : list string) : list string :=
  let resto := drop 10 todas in
  take 10 todas ++ take 10 (muestras (paso_de (length resto)) resto).

(** The positions of the input the thinned list is read from. *)
Definition posiciones_mostradas (n : nat) : list nat :=
  seq 0 (Nat.min 10 n)
  ++ map (fun i => (10 + i)%nat) (take 10 (multiplos (paso_de (n - 10)) (n - 10))).

(** The 21 offsets around the reference strike. *)
Definition desplazamientos : list float :=
  [-5; -4.5; -4; -3.5; -3; -2.5; -2; -1.5; -1; -0.5; 0;
   0.5; 1; 1.5; 2; 2.5; 3; 3.5; 4; 4.5; 5]%float.

(** A row whose strike equals the chosen one. *)
Definition coincide (strike_elegido : option float) (r : option_row) : bool :=
  match strike_elegido with
  | Some s => float_eq (strike r) s
  | None => false
  end.

(** The world after the events [evs]. *)
Definition tras (evs : list event) (w : World) : World :=
  set_trace (trace w ++ evs) w.

(** The events of a run: what it added to the trace. *)
Definition nuevos (w w' : World) : list event :=
  drop (length (trace w)) (trace w').

(** [m] never ends in [st.stop()]. *)
Definition sin_stop {A} (m : M A) : Prop :=
  forall w w', m w <> (Stopped, w').

(** [m] raises nothing but exceptions in [Q]. *)
Definition lanza_solo {A} (Q : exn -> Prop) (m : M A) : Prop :=
  forall w e w', m w = (Raised e, w') -> Q e.

(** The failures of the two lookups the script makes outside any
    handler of their exception: the one-day history raising anything but
    an [IndexError], and the expiration dates raising. *)
Definition fallo_de_consulta (yf : Provider) (simbolo : string) (e : exn) : Prop :=
  (provider_history yf simbolo "1d" = Err e /\ is_IndexError e = false)
  \/ provider_options yf simbolo = Err e.

(** Whatever [m] adds to the trace satisfies [P]. *)
Definition emite {A} (P : event -> Prop) (m : M A) : Prop :=
  forall w, exists evs, trace (snd (m w)) = trace w ++ evs /\ Forall P evs.

(** The trace [m] adds starts with the events [pre]. *)
Definition prefijo {A} (pre : list event) (m : M A) : Prop :=
  forall w, exists resto, trace (snd (m w)) = trace w ++ pre ++ resto.

(** The lookups of the underlying ticker: its one-day history, its
    expiration dates and its option chain. *)
Definition consulta_del_ticker (simbolo : string) (e : event) : Prop :=
  match e with
  | yf_history s period => period = "1d"%string -> s = simbolo
  | yf_options s => s = simbolo
  | yf_option_chain s _ => s = simbolo
  | _ => True
  end.

(** The same interaction with another text in the ticker box. *)
Definition con_texto (texto : string) (ui : Inputs) : Inputs := {|
  texto_ticker := texto;
  valor_strike := valor_strike ui;
  pick_strike := pick_strike ui;
  pick_fecha := pick_fecha ui;
  pick_tipo := pick_tipo ui;
  boton_buscar := boton_buscar ui
|}.

(** [m] returns nothing but values in [Q]. *)
Definition devuelve {A} (Q : A -> Prop) (m : M A) : Prop :=
  forall w a w', m w = (Normal a, w') -> Q a.

(** The events of the search: the option-chain and option-history
    lookups and what is shown of their results. *)
Definition es_de_busqueda (e : event) : bool :=
  match e with
  | yf_option_chain _ _ | st_info _ | st_dataframe _ | st_metric _ _
  | st_line_chart _ => true
  | yf_history _ period => String.eqb period "1mo"
  | _ => false
  end.

(** The provider calls. *)
Definition es_yf (e : event) : bool :=
  match e with
  | yf_Ticker _ | yf_history _ _ | yf_options _ | yf_option_chain _ _ => true
  | _ => false
  end.

(** What is shown of a selection before its history. *)
Definition eventos_de_seleccion (seleccion : list option_row) (r : option_row)
  : list event :=
  [st_success msg_opcion_encontrada; st_dataframe seleccion;
   st_subheader MetricasClave; st_columns 4;
   st_metric UltimoPrecio (lastPrice r); st_metric Bid (bid r);
   st_metric Ask (ask r); st_metric VolatilidadImplicita (impliedVolatility r)].

(** An option-chain lookup is made for the ticker of the run, after the
    button was pressed, with a date the provider listed for it. *)
Definition consulta_de_cadena (yf : Provider) (ui : Inputs) (simbolo : string)
    (e : event) : Prop :=
  match e with
  | yf_option_chain s fecha =>
      s = simbolo /\ boton_buscar ui = true
      /\ exists todas, provider_options yf simbolo = Ok todas /\ fecha ∈ todas
  | _ => True
  end.

(** Not one of the two calls that close the page (lines 135-136). *)
Definition no_es_pie (e : event) : Prop := e <> st_markdown /\ e <> st_write.

(* ================================================================= *)
(** * A small market to run the script on *)

Module Demo.

(** [str.upper] on ASCII text. *)
Definition upper_char (c : Ascii.ascii) : Ascii.ascii :=
  let n := Ascii.nat_of_ascii c in
  if ((97 <=? n) && (n <=? 122))%nat then Ascii.ascii_of_nat (n - 32) else c.

Fixpoint upper (s : string) : string :=
  match s with
  | EmptyString => EmptyString
  | String c s' => String (upper_char c) (upper s')
  end.

Definition vela (c : float) : history_row := HistoryRow c c c c.

Definition aapl_200 : option_row :=
  OptionRow "AAPL250117C00200000" 200 31.5 31.25 31.75 0.25.
Definition aapl_205 : option_row :=
  OptionRow "AAPL250117C00205000" 205 27 26.75 27.25 0.25.
Definition aapl_200_put : option_row :=
  OptionRow "AAPL250117P00200000" 200 1.5 1.25 1.75 0.25.
Definition msft_200 : option_row :=
  OptionRow "MSFT250117C00200000" 200 221 220.5 221.5 0.5.

Definition fechas_aapl : list string :=
  ["2025-01-17"; "2025-01-24"; "2025-02-21"].

(** Twenty-five expiration dates, numbered. *)
Definition fechas_largas : list string :=
  map (fun i : nat => pretty i) (seq 0 25).

Definition sin_red : exn := Exn "ConnectionError" "sin red".

(** AAPL and MSFT are listed with options; SINOPC has prices but no
    options; the chain of SINCAD and the history of the MSFT contract
    cannot be fetched; CAIDO cannot be fetched at all; any other symbol
    has no data. *)
Definition yf : Provider := {|
  provider_history := fun symbol period =>
    if String.eqb symbol "AAPL" then Ok [vela 229.5; vela 230]
    else if String.eqb symbol "MSFT" then Ok [vela 420]
    else if String.eqb symbol "SINOPC" then Ok [vela 10]
    else if String.eqb symbol "SINCAD" then Ok [vela 10]
    else if String.eqb symbol "AAPL250117C00200000" then Ok [vela 30; vela 31.5]
    else if String.eqb symbol "MSFT250117C00200000" then Err sin_red
    else if String.eqb symbol "CAIDO" then Err sin_red
    else Ok [];
  provider_options := fun symbol =>
    if String.eqb symbol "AAPL" then Ok fechas_aapl
    else if String.eqb symbol "MSFT" then Ok ["2025-01-17"]
    else if String.eqb symbol "SINCAD" then Ok ["2025-01-17"]
    else Ok [];
  provider_option_chain := fun symbol fecha =>
    if String.eqb symbol "AAPL" then Ok (Chain [aapl_200; aapl_205] [aapl_200_put])
    else if String.eqb symbol "MSFT" then Ok (Chain [msft_200] [])
    else Err (ValueError "Expiration not found")
|}.

Definition vacio : World := MkWorld [] ∅ ∅.

(** The user types a ticker and a reference strike and presses the button
    or not; the select boxes are left as they are. *)
Definition entrada (texto : string) (strike_central : float) (pulsa : bool) : Inputs := {|
  texto_ticker := texto;
  valor_strike := strike_central;
  pick_strike := None;
  pick_fecha := None;
  pick_tipo := None;
  boton_buscar := pulsa
|}.

(** A first run at time 0 asks for AAPL; a second run a minute later
    asks for MSFT with the same expiration date and strike; a third run
    another minute later repeats the second. *)
Definition primera : outcome unit * World :=
  script upper yf 0 (entrada "aapl" 200 true) vacio.
Definition segunda : outcome unit * World :=
  script upper yf 60 (entrada "msft" 200 true) (snd primera).
Definition tercera : outcome unit * World :=
  script upper yf 120 (entrada "msft" 200 true) (snd segunda).

(** What a run shows when it asks for MSFT and is served the tables
    stored for AAPL. *)
Definition msft_con_tablas_de_aapl : list event :=
  [st_set_page_config; st_title; st_text_input;
   yf_Ticker "MSFT"; yf_history "MSFT" "1d";
   st_success (msg_precio_cierre "MSFT" 420);
   st_columns 3; st_subheader ElegirStrike; st_number_input 420;
   st_selectbox_strike (strikes_disponibles 200) 10;
   st_subheader ElegirVencimiento; yf_options "MSFT";
   st_selectbox_fecha ["2025-01-17"];
   st_subheader ElegirTipo; st_selectbox_tipo ["Call"; "Put"];
   st_button;
   st_info (msg_buscando (Some "Call") "MSFT" (Some "2025-01-17") (Some 200%float));
   st_success msg_opcion_encontrada;
   st_dataframe [aapl_200];
   st_subheader MetricasClave; st_columns 4;
   st_metric UltimoPrecio 31.5; st_metric Bid 31.25;
   st_metric Ask 31.75; st_metric VolatilidadImplicita 0.25;
   st_subheader HistorialPrecio;
   st_line_chart [30%float; 31.5%float];
   st_markdown; st_write].

End Demo.

(** More cases to run the script on. *)
Module Casos.

(** Forty expiration dates, numbered. *)
Definition fechas_40 : list string :=
  map (fun i : nat => pretty i) (seq 0 40).

Definition sincad_10 : option_row :=
  OptionRow "SINCAD250117C00010000" 10 1.5 1.25 1.75 0.5.

(** The market of [Demo] once its failures are over: the history of the
    MSFT contract and the chain of SINCAD can be fetched. *)
Definition yf_recuperado : Provider := {|
  provider_history := fun symbol period =>
    if String.eqb symbol "MSFT250117C00200000" then Ok [Demo.vela 221]
    else provider_history Demo.yf symbol period;
  provider_options := provider_options Demo.yf;
  provider_option_chain := fun symbol fecha =>
    if String.eqb symbol "SINCAD" then Ok (Chain [sincad_10] [])
    else provider_option_chain Demo.yf symbol fecha
|}.

End Casos.

Local Open Scope nat_scope.

(* ================================================================= *)
(** * Sampling at a stride *)

Lemma Forall2_impl_Forall_l {A B} (P P' : A -> B -> Prop) (Q : A -> Prop)
    (l : list A) (k : list B) :
  Forall2 P l k -> Forall Q l ->
  (forall x y, Q x -> P x y -> P' x y) -> Forall2 P' l k.
Proof.
  intros HP HQ Himpl. induction HP as [|x y l k Hxy _ IH]; [constructor|].
  apply Forall_cons in HQ as [Hx HQ]. constructor; [by apply Himpl|by apply IH].
Qed.

Section Listas.
Context {A : Type}.

Lemma filter_ext_elem (P Q : A -> Prop)
    `{!forall x, Decision (P x)} `{!forall x, Decision (Q x)} (l : list A) :
  (forall x, x ∈ l -> (P x <-> Q x)) -> filter P l = filter Q l.
Proof.
  induction l as [|x l IH]; intros Hext; [done|].
  rewrite !filter_cons. rewrite IH by (intros y Hy; apply Hext; by right).
  destruct (decide (P x)) as [HP|HP], (decide (Q x)) as [HQ|HQ]; try done.
  - destruct HQ. apply Hext; [by left|done].
  - destruct HP. apply Hext; [by left|done].
Qed.

Lemma StronglySorted_filter (R : A -> A -> Prop) (P : A -> Prop)
    `{!forall x, Decision (P x)} (l : list A) :
  StronglySorted R l -> StronglySorted R (filter P l).
Proof.
  induction 1 as [|x l Hl IH Hx]; [constructor|].
  rewrite filter_cons. destruct (decide (P x)); [|done].
  constructor; [done|].
  apply Forall_forall. intros y [_ Hy]%list_elem_of_filter.
  by eapply Forall_forall in Hx.
Qed.

Lemma en_posiciones_cons (xs : list A) (i : nat) (pos : list nat) (x : A) :
  xs !! i = Some x -> en_posiciones xs (i :: pos) = x :: en_posiciones xs pos.
Proof. intros Hx. unfold en_posiciones. simpl. by rewrite Hx. Qed.

Lemma en_posiciones_lookup (xs : list A) (pos : list nat) :
  Forall (fun i => i < length xs) pos ->
  Forall2 (fun i x => xs !! i = Some x) pos (en_posiciones xs pos).
Proof.
  induction 1 as [|i pos Hi _ IH]; [constructor|].
  destruct (lookup_lt_is_Some_2 xs i Hi) as [x Hx].
  rewrite (en_posiciones_cons _ _ _ _ Hx). by constructor.
Qed.

Lemma muestras_nil (paso : nat) : muestras paso (@nil A) = [].
Proof. reflexivity. Qed.

(** Reading a list at increasing positions yields a subsequence of it. *)
Lemma posiciones_sublist (xs : list A) :
  forall (k : nat) (pos : list nat) (ys : list A),
  StronglySorted lt pos ->
  Forall2 (fun i y => k <= i /\ xs !! (i - k) = Some y) pos ys ->
  ys `sublist_of` xs.
Proof.
  induction xs as [|x xs IH]; intros k pos ys Hsorted Hlook.
  - destruct Hlook as [|i y pos ys [_ Hy] _]; [constructor|]. by destruct (i - k).
  - destruct Hlook as [|i y pos ys [Hki Hy] Hrest]; [apply sublist_nil_l|].
    apply StronglySorted_inv in Hsorted as [Hsorted Hgt].
    destruct (decide (i = k)) as [->|Hne].
    + rewrite Nat.sub_diag in Hy. injection Hy as ->.
      apply sublist_skip, (IH (S k) pos); [done|].
      eapply Forall2_impl_Forall_l; [exact Hrest|exact Hgt|].
      intros j z Hj [_ Hz]. split; [lia|].
      by replace (j - k) with (S (j - S k)) in Hz by lia.
    + apply sublist_cons, (IH (S k) (i :: pos)); [by constructor|].
      constructor.
      * split; [lia|]. by replace (i - k) with (S (i - S k)) in Hy by lia.
      * eapply Forall2_impl_Forall_l; [exact Hrest|exact Hgt|].
        intros j z Hj [_ Hz]. split; [lia|].
        by replace (j - k) with (S (j - S k)) in Hz by lia.
Qed.

End Listas.

Lemma StronglySorted_seq (start len : nat) : StronglySorted lt (seq start len).
Proof.
  revert start. induction len as [|len IH]; intros start; simpl; constructor.
  - apply IH.
  - apply Forall_forall. intros j Hj%elem_of_seq. lia.
Qed.

(** No position strictly between [i] and [i + step] is [step] apart
    from [i]. *)
Lemma filter_seq_skip (step i len : nat) :
  len < step ->
  filter (fun j => (j - i) mod step = 0) (seq (S i) len) = [].
Proof.
  intros Hlen. induction len as [|len IH]; [done|].
  rewrite seq_S, filter_app, IH by lia. simpl.
  rewrite filter_cons_False, filter_nil; [done|].
  replace (S (i + len) - i) with (S len) by lia.
  rewrite Nat.mod_small by lia. lia.
Qed.

(** With enough fuel [range_from] lists the positions from [i] below
    [stop] that are a multiple of [step] away from [i]. *)
Lemma range_from_filter (fuel : nat) : forall i stop step,
  0 < step -> stop <= fuel + i ->
  range_from fuel i stop step
  = filter (fun j => (j - i) mod step = 0) (seq i (stop - i)).
Proof.
  induction fuel as [|fuel IH]; intros i stop step Hstep Hfuel; simpl.
  - by replace (stop - i) with 0 by lia.
  - destruct (Nat.ltb_spec i stop) as [Hlt|Hge];
      [|by replace (stop - i) with 0 by lia].
    rewrite IH by lia.
    replace (stop - i) with (S (stop - S i)) by lia. simpl.
    rewrite filter_cons_True by (rewrite Nat.sub_diag; apply Nat.Div0.mod_0_l).
    f_equal.
    destruct (Nat.le_gt_cases (i + step) stop) as [Hle|Hgt].
    + replace (stop - S i) with ((step - 1) + (stop - (i + step))) by lia.
      rewrite seq_app, filter_app, filter_seq_skip by lia. simpl.
      replace (S (i + (step - 1))) with (i + step) by lia.
      apply filter_ext_elem. intros j [Hj _]%elem_of_seq.
      replace (j - i) with ((j - (i + step)) + 1 * step) by lia.
      by rewrite Nat.Div0.mod_add.
    + replace (stop - (i + step)) with 0 by lia. simpl.
      by rewrite filter_seq_skip by lia.
Qed.

Lemma range_multiplos (n paso : nat) :
  0 < paso -> range_from n 0 n paso = multiplos paso n.
Proof.
  intros Hpaso. rewrite range_from_filter by lia.
  rewrite Nat.sub_0_r. apply list_filter_iff. intros j. by rewrite Nat.sub_0_r.
Qed.

Lemma multiplos_lt (paso n : nat) : Forall (fun i => i < n) (multiplos paso n).
Proof.
  apply Forall_forall. intros i [_ Hi%elem_of_seq]%list_elem_of_filter. lia.
Qed.

Lemma multiplos_sorted (paso n : nat) : StronglySorted lt (multiplos paso n).
Proof. apply StronglySorted_filter, StronglySorted_seq. Qed.

(* ================================================================= *)
(** * Thinning the expiration dates (lines 76-82) *)

(** The loop of lines 80-82: from [acc] it appends the sampled dates for
    as long as fewer than 20 are held, and never indexes out of range. *)
Lemma bucle_muestreo (lejanas : list string) :
  forall (indices : list nat) (acc : list string) (w : World),
  Forall (fun i => i < length lejanas) indices ->
  for_each indices
    (fun i fechas =>
       if length fechas <? 20 then
         bind (getitem lejanas i) (fun fecha => ret (fechas ++ [fecha]))
       else ret fechas) acc w
  = (Normal (acc ++ take (20 - length acc) (en_posiciones lejanas indices)), w).
Proof.
  induction indices as [|i indices IH]; intros acc w Hin; cbn [for_each].
  - unfold ret, en_posiciones. simpl. by rewrite take_nil, app_nil_r.
  - apply Forall_cons in Hin as [Hi Hin].
    destruct (lookup_lt_is_Some_2 lejanas i Hi) as [x Hx].
    rewrite (en_posiciones_cons _ _ _ _ Hx).
    unfold bind at 1. destruct (Nat.ltb_spec (length acc) 20) as [Hlt|Hge].
    + unfold bind, getitem. rewrite Hx. unfold ret at 1 2.
      rewrite IH by done. rewrite length_app. simpl.
      replace (20 - length acc) with (S (20 - (length acc + 1))) by lia.
      simpl. by rewrite <- app_assoc.
    + unfold ret at 1. rewrite IH by done.
      by replace (20 - length acc) with 0 by lia.
Qed.

(** The thinning returns, raises nothing, touches nothing, and computes
    [fechas_reducidas]. *)
Lemma fechas_a_mostrar_eq (todas : list string) (w : World) :
  fechas_a_mostrar todas w = (Normal (fechas_reducidas todas), w).
Proof.
  unfold fechas_a_mostrar, fechas_reducidas, paso_de.
  destruct (Nat.ltb_spec 10 (length todas)) as [Hlt|Hge].
  - unfold bind at 1, range.
    destruct (Nat.max 1 (length (drop 10 todas) / 10)) as [|p] eqn:Hp; [lia|].
    unfold ret at 1.
    rewrite range_multiplos by lia.
    rewrite bucle_muestreo by apply multiplos_lt.
    by rewrite length_take_le by lia.
  - unfold ret. rewrite (drop_ge todas 10) by lia.
    by rewrite muestras_nil, app_nil_r.
Qed.

Lemma posiciones_mostradas_sorted (n : nat) :
  StronglySorted lt (posiciones_mostradas n).
Proof.
  unfold posiciones_mostradas. apply StronglySorted_app. split_and!.
  - intros i j Hi%elem_of_seq [k [-> _]]%list_elem_of_fmap. lia.
  - apply StronglySorted_seq.
  - eapply StronglySorted_fmap with (R1 := lt); [intros i j; lia|].
    generalize (multiplos_sorted (paso_de (n - 10)) (n - 10)).
    generalize (multiplos (paso_de (n - 10)) (n - 10)). intros l Hl.
    rewrite <- (take_drop 10 l) in Hl. by apply StronglySorted_app_1_l in Hl.
Qed.

Lemma posiciones_mostradas_lookup (todas : list string) :
  Forall2 (fun i x => todas !! i = Some x)
    (posiciones_mostradas (length todas)) (fechas_reducidas todas).
Proof.
  unfold posiciones_mostradas, fechas_reducidas. apply Forall2_app.
  - rewrite <- (length_take todas 10).
    apply Forall2_same_length_lookup. split; [by rewrite length_seq|].
    intros i j x Hj Hx. apply lookup_seq in Hj as [-> Hi]. simpl.
    rewrite length_take in Hi. by rewrite lookup_take_lt in Hx by lia.
  - apply Forall2_fmap_l, Forall2_take.
    rewrite <- (length_drop todas 10).
    eapply Forall2_impl; [apply en_posiciones_lookup, multiplos_lt|].
    intros i x Hx. simpl in Hx. by rewrite lookup_drop in Hx.
Qed.

(** C1.  For every list of expiration dates the thinning returns a list
    of at most 20 entries: the first 10 dates verbatim followed by the
    dates sampled from the remainder at the stride
    [max 1 (length remainder / 10)], of which only the first 10 are
    appended (the list holds 10 entries when the sampling starts and is
    extended only while it holds fewer than 20). *)
Theorem thinning_at_most_20 (todas : list string) (w : World) :
  exists mostradas,
    fechas_a_mostrar todas w = (Normal mostradas, w)
    /\ length mostradas <= 20
    /\ take 10 mostradas = take 10 todas
    /\ mostradas
       = take 10 todas
         ++ take 10 (muestras (Nat.max 1 (length (drop 10 todas) / 10))
                       (drop 10 todas)).
Proof.
  exists (fechas_reducidas todas). split_and!.
  - apply fechas_a_mostrar_eq.
  - unfold fechas_reducidas. rewrite length_app, !length_take. lia.
  - unfold fechas_reducidas.
    destruct (Nat.le_gt_cases 10 (length todas)).
    + apply take_app_length'. rewrite length_take. lia.
    + rewrite (drop_ge todas 10), muestras_nil, take_nil, app_nil_r by lia.
      apply take_take.
  - reflexivity.
Qed.

(** C8.  The thinned list is an order-preserving subsequence of the
    input: it is the input read at the strictly increasing positions
    [posiciones_mostradas], hence without repeating a position, and an
    input of 10 dates or fewer comes back unchanged. *)
Theorem thinning_is_subsequence (todas : list string) (w : World) :
  exists mostradas,
    fechas_a_mostrar todas w = (Normal mostradas, w)
    /\ mostradas `sublist_of` todas
    /\ StronglySorted lt (posiciones_mostradas (length todas))
    /\ Forall2 (fun i x => todas !! i = Some x)
         (posiciones_mostradas (length todas)) mostradas
    /\ (length todas <= 10 -> mostradas = todas).
Proof.
  exists (fechas_reducidas todas).
  pose proof (posiciones_mostradas_sorted (length todas)) as Hsorted.
  pose proof (posiciones_mostradas_lookup todas) as Hlook.
  split_and!; try done.
  - apply fechas_a_mostrar_eq.
  - apply (posiciones_sublist todas 0 (posiciones_mostradas (length todas))); [done|].
    eapply Forall2_impl; [exact Hlook|].
    intros i x Hx. split; [lia|]. by rewrite Nat.sub_0_r.
  - intros Hle. unfold fechas_reducidas.
    rewrite (drop_ge todas 10), muestras_nil, app_nil_r by lia. by apply take_ge.
Qed.

(** Twenty-five dates: the first ten, then every one of the next ten. *)
Lemma thinning_is_subsequence_witness :
  exists mostradas,
    fechas_a_mostrar Demo.fechas_largas Demo.vacio = (Normal mostradas, Demo.vacio)
    /\ mostradas `sublist_of` Demo.fechas_largas
    /\ length mostradas = 20.
Proof.
  destruct (thinning_is_subsequence Demo.fechas_largas Demo.vacio)
    as (mostradas & Hrun & Hsub & _).
  exists mostradas. split_and!; [done..|].
  vm_compute in Hrun. by injection Hrun as <-.
Defined.

(* ================================================================= *)
(** * The candidate strikes (lines 63-66) *)

(** Adding the float zero changes nothing but the sign of a negative
    zero. *)
Lemma add_zero_r (c : float) :
  Prim2SF c <> S754_zero true -> (c + 0)%float = c.
Proof.
  intros Hc. apply Prim2SF_inj. rewrite add_spec.
  change (Prim2SF 0) with (S754_zero false).
  by destruct (Prim2SF c) as [[]| [] | |s m e].
Qed.

Lemma centro_mismo_valor (c : float) :
  mismo_valor (round2 (c + 0)%float) (round2 c).
Proof.
  destruct (Prim2SF c) as [[]| | |] eqn:Hc.
  - right. rewrite <- (SF2Prim_Prim2SF c), Hc. reflexivity.
  - left. rewrite add_zero_r; [done|]. by rewrite Hc.
  - left. rewrite add_zero_r; [done|]. by rewrite Hc.
  - left. rewrite add_zero_r; [done|]. by rewrite Hc.
  - left. rewrite add_zero_r; [done|]. by rewrite Hc.
Qed.

(** C2.  For every reference strike [c] there are exactly 21 candidates;
    the candidate at position [i] is [round2 (c + (i - 10) * 0.5)], the
    offsets [(i - 10) * 0.5] running from -5 to 5 in steps of 0.5; the
    candidate at position 10, which the select box returns while it is
    untouched, is the rounded reference strike; the select box is
    offered these candidates with index 10. *)
Theorem strikes_around_center (c : float) (texto : string) :
  length (strikes_disponibles c) = 21
  /\ strikes_disponibles c = map (fun d => round2 (c + d)%float) desplazamientos
  /\ Forall2 (fun (i : nat) d => d = (float_of_int (Z.of_nat i - 10) * 0.5)%float)
       (seq 0 21) desplazamientos
  /\ (exists medio,
        strikes_disponibles c !! 10 = Some medio
        /\ selectbox (strikes_disponibles c) 10 None = Some medio
        /\ mismo_valor medio (round2 c))
  /\ (forall pick_s pick_f pick_t pulsa precio_actual w,
        elegir_strike (Build_Inputs texto c pick_s pick_f pick_t pulsa) precio_actual w
        = (Normal (selectbox (strikes_disponibles c) 10 pick_s),
           tras [st_subheader ElegirStrike; st_number_input precio_actual;
                 st_selectbox_strike (strikes_disponibles c) 10] w)).
Proof.
  split_and!.
  - reflexivity.
  - reflexivity.
  - repeat constructor.
  - exists (round2 (c + 0)%float).
    split_and!; [reflexivity..|apply centro_mismo_valor].
  - intros. unfold elegir_strike, bind, emit, tras, set_trace. simpl.
    by rewrite <- !app_assoc.
Qed.

(* ================================================================= *)
(** * Reasoning about runs *)

(** Unfolds the script down to the monad and runs it up to the next
    answer of the provider. *)
Ltac ejecutar :=
  unfold cuerpo, comprobar_ticker, get_ticker_object, elegir_strike,
    elegir_fecha, elegir_tipo, boton;
  unfold new_Ticker, Ticker_history, Ticker_options, Ticker_option_chain,
    iloc_last, iloc_0;
  unfold bind, try_except, emit, ret, raise, st_stop; simpl.

Ltac trazas := unfold tras, set_trace; simpl; rewrite <- ?app_assoc; simpl.

(** ** Computations that never stop the script *)

Create HintDb sin_stop.

Section SinStop.
Context {A : Type}.

Lemma sin_stop_ret (a : A) : sin_stop (ret a).
Proof. by intros w w'. Qed.

Lemma sin_stop_raise (e : exn) : sin_stop (@raise A e).
Proof. by intros w w'. Qed.

Lemma sin_stop_lift (r : result A) : sin_stop (lift r).
Proof. by destruct r. Qed.

Lemma sin_stop_bind {B} (m : M A) (k : A -> M B) :
  sin_stop m -> (forall a, sin_stop (k a)) -> sin_stop (bind m k).
Proof.
  intros Hm Hk w w'. unfold bind. specialize (Hm w).
  destruct (m w) as [[a|e|] w1]; [apply Hk|done|]. by destruct (Hm w1).
Qed.

Lemma sin_stop_try_except (m : M A) (handles : exn -> bool) (h : exn -> M A) :
  sin_stop m -> (forall e, sin_stop (h e)) -> sin_stop (try_except m handles h).
Proof.
  intros Hm Hh w w'. unfold try_except. specialize (Hm w).
  destruct (m w) as [[a|e|] w1]; [done| |by destruct (Hm w1)].
  destruct (handles e); [apply Hh|done].
Qed.

Lemma sin_stop_cache_data now (get : World -> cache A) set ttl key (func : M A) :
  sin_stop func -> sin_stop (cache_data now get set ttl key func).
Proof.
  intros Hf w w'. unfold cache_data.
  destruct (cache_lookup now ttl (get w) key); [done|].
  specialize (Hf w). destruct (func w) as [[a|e|] w1]; [done|done|by destruct (Hf w1)].
Qed.

Lemma sin_stop_iloc_0 (s : list A) : sin_stop (iloc_0 s).
Proof. unfold iloc_0. by destruct (head s). Qed.

Lemma sin_stop_if (b : bool) (m1 m2 : M A) :
  sin_stop m1 -> sin_stop m2 -> sin_stop (if b then m1 else m2).
Proof. by destruct b. Qed.

End SinStop.

Lemma sin_stop_emit (e : event) : sin_stop (emit e).
Proof. by intros w w'. Qed.

#[local] Hint Resolve sin_stop_ret sin_stop_raise sin_stop_emit sin_stop_lift
  sin_stop_bind sin_stop_try_except sin_stop_cache_data sin_stop_iloc_0
  sin_stop_if : sin_stop.

Lemma sin_stop_get_option_history yf now contract_symbol :
  sin_stop (get_option_history yf now contract_symbol).
Proof.
  unfold get_option_history, new_Ticker, Ticker_history. auto 10 with sin_stop.
Qed.

Lemma sin_stop_mostrar_opcion yf now tablas tipo strike_elegido :
  sin_stop (mostrar_opcion yf now tablas tipo strike_elegido).
Proof.
  destruct tablas as [calls puts].
  unfold mostrar_opcion, mostrar_historial.
  pose proof (sin_stop_get_option_history yf now).
  auto 30 with sin_stop.
Qed.

Lemma sin_stop_buscar_y_mostrar yf now accion fecha tipo strike_elegido :
  sin_stop (buscar_y_mostrar yf now accion fecha tipo strike_elegido).
Proof.
  unfold buscar_y_mostrar, get_option_dataframes, Ticker_option_chain.
  pose proof (sin_stop_mostrar_opcion yf now).
  auto 10 with sin_stop.
Qed.

(** ** The exceptions a computation can raise *)

Section LanzaSolo.
Context (Q : exn -> Prop).

Lemma lanza_solo_nunca {A} (m : M A) :
  (forall w e w', m w <> (Raised e, w')) -> lanza_solo Q m.
Proof. intros Hm w e w' Hrun. by destruct (Hm w e w'). Qed.

Lemma lanza_solo_ret {A} (a : A) : lanza_solo Q (ret a).
Proof. by apply lanza_solo_nunca. Qed.

Lemma lanza_solo_emit (e : event) : lanza_solo Q (emit e).
Proof. by apply lanza_solo_nunca. Qed.

Lemma lanza_solo_st_stop {A} : lanza_solo Q (@st_stop A).
Proof. by apply lanza_solo_nunca. Qed.

Lemma lanza_solo_raise {A} (e : exn) : Q e -> lanza_solo Q (@raise A e).
Proof. by intros He w e' w' [= <- _]. Qed.

Lemma lanza_solo_lift {A} (r : result A) :
  (forall e, r = Err e -> Q e) -> lanza_solo Q (lift r).
Proof.
  intros Hr w e w' Hrun. destruct r as [a|e0]; [done|].
  injection Hrun as <- _. by apply Hr.
Qed.

Lemma lanza_solo_bind {A B} (m : M A) (k : A -> M B) :
  lanza_solo Q m -> (forall a, lanza_solo Q (k a)) -> lanza_solo Q (bind m k).
Proof.
  intros Hm Hk w e w' Hrun. unfold bind in Hrun. specialize (Hm w).
  destruct (m w) as [[a|e1|] w1]; [by eapply Hk| |done].
  injection Hrun as <- _. by eapply Hm.
Qed.

(** A step that emits [e] and returns the known value [a]. *)
Lemma lanza_solo_bind_emit_ret {A B} (e : event) (a : A) (k : A -> M B) :
  lanza_solo Q (k a) -> lanza_solo Q (bind (bind (emit e) (fun _ => ret a)) k).
Proof. intros Hk w e' w' Hrun. exact (Hk (tras [e] w) e' w' Hrun). Qed.

(** What gets out of a [try] is what the body raises and the clause
    does not handle, and what the handler raises. *)
Lemma lanza_solo_try_except {A} (Q' : exn -> Prop) (m : M A)
    (handles : exn -> bool) (h : exn -> M A) :
  lanza_solo Q' m ->
  (forall e, Q' e -> handles e = false -> Q e) ->
  (forall e, lanza_solo Q (h e)) ->
  lanza_solo Q (try_except m handles h).
Proof.
  intros Hm Hout Hh w e w' Hrun. unfold try_except in Hrun. specialize (Hm w).
  destruct (m w) as [[a|e1|] w1]; [done| |done].
  destruct (handles e1) eqn:Hhandles; [by eapply Hh|].
  injection Hrun as <- _. apply Hout; [by eapply Hm|done].
Qed.


Lemma lanza_solo_if {A} (b : bool) (m1 m2 : M A) :
  lanza_solo Q m1 -> lanza_solo Q m2 -> lanza_solo Q (if b then m1 else m2).
Proof. by destruct b. Qed.

Lemma lanza_solo_iloc_last {A} (s : list A) :
  (forall msg, Q (IndexError msg)) -> lanza_solo Q (iloc_last s).
Proof.
  intros HQ w e w' Hrun. unfold iloc_last in Hrun.
  destruct (last s); [done|]. by injection Hrun as <- _.
Qed.

Lemma lanza_solo_fechas_a_mostrar (todas : list string) :
  lanza_solo Q (fechas_a_mostrar todas).
Proof. apply lanza_solo_nunca. intros w e w'. by rewrite fechas_a_mostrar_eq. Qed.

End LanzaSolo.

Lemma lanza_solo_True {A} (m : M A) : lanza_solo (fun _ => True) m.
Proof. by intros w e w' _. Qed.

(** A handler for [Exception] lets nothing out but what it raises. *)
Lemma lanza_solo_catch_all {A} (Q : exn -> Prop) (m : M A) (h : exn -> M A) :
  (forall e, lanza_solo Q (h e)) -> lanza_solo Q (try_except m is_Exception h).
Proof.
  intros Hh. apply (lanza_solo_try_except Q (fun _ => True)); [|done..].
  apply lanza_solo_True.
Qed.

Ltac lanza_paso :=
  first
    [ apply lanza_solo_fechas_a_mostrar
    | apply lanza_solo_catch_all; intros ?
    | apply lanza_solo_bind_emit_ret
    | apply lanza_solo_bind; [|intros ?]
    | apply lanza_solo_if
    | apply lanza_solo_emit
    | apply lanza_solo_ret
    | apply lanza_solo_st_stop ].

(** ** What a computation adds to the trace *)

Section Emite.
Context (P : event -> Prop).

Lemma emite_nada {A} (m : M A) : (forall w, snd (m w) = w) -> emite P m.
Proof. intros Hm w. exists []. by rewrite Hm, app_nil_r. Qed.

Lemma emite_ret {A} (a : A) : emite P (ret a).
Proof. by apply emite_nada. Qed.

Lemma emite_raise {A} (e : exn) : emite P (@raise A e).
Proof. by apply emite_nada. Qed.

Lemma emite_st_stop {A} : emite P (@st_stop A).
Proof. by apply emite_nada. Qed.

Lemma emite_lift {A} (r : result A) : emite P (lift r).
Proof. apply emite_nada. by destruct r. Qed.

Lemma emite_emit (e : event) : P e -> emite P (emit e).
Proof. intros He w. exists [e]. split; [done|by constructor]. Qed.

Lemma emite_bind {A B} (m : M A) (k : A -> M B) :
  emite P m -> (forall a, emite P (k a)) -> emite P (bind m k).
Proof.
  intros Hm Hk w. unfold bind. destruct (Hm w) as (evs1 & Htr1 & HP1).
  destruct (m w) as [[a|e|] w1]; simpl in *; [|by eauto..].
  destruct (Hk a w1) as (evs2 & Htr2 & HP2).
  exists (evs1 ++ evs2). split; [|by apply Forall_app].
  by rewrite Htr2, Htr1, app_assoc.
Qed.

Lemma emite_try_except {A} (m : M A) (handles : exn -> bool) (h : exn -> M A) :
  emite P m -> (forall e, emite P (h e)) -> emite P (try_except m handles h).
Proof.
  intros Hm Hh w. unfold try_except. destruct (Hm w) as (evs1 & Htr1 & HP1).
  destruct (m w) as [[a|e|] w1]; simpl in *; [by eauto| |by eauto].
  destruct (handles e); [|by eauto].
  destruct (Hh e w1) as (evs2 & Htr2 & HP2).
  exists (evs1 ++ evs2). split; [|by apply Forall_app].
  by rewrite Htr2, Htr1, app_assoc.
Qed.

Lemma emite_cache_data {V} now (get : World -> cache V) set ttl key (func : M V) :
  (forall c w, trace (set c w) = trace w) ->
  emite P func -> emite P (cache_data now get set ttl key func).
Proof.
  intros Hset Hf w. unfold cache_data.
  destruct (cache_lookup now ttl (get w) key).
  - exists []. by rewrite app_nil_r.
  - destruct (Hf w) as (evs & Htr & HP).
    destruct (func w) as [[a|e|] w1]; simpl in *; [|by eauto..].
    exists evs. by rewrite Hset.
Qed.

Lemma emite_if {A} (b : bool) (m1 m2 : M A) :
  emite P m1 -> emite P m2 -> emite P (if b then m1 else m2).
Proof. by destruct b. Qed.

Lemma emite_iloc_0 {A} (s : list A) : emite P (iloc_0 s).
Proof. apply emite_nada. intros w. unfold iloc_0. by destruct (head s). Qed.

Lemma emite_iloc_last {A} (s : list A) : emite P (iloc_last s).
Proof. apply emite_nada. intros w. unfold iloc_last. by destruct (last s). Qed.

Lemma emite_fechas_a_mostrar (todas : list string) : emite P (fechas_a_mostrar todas).
Proof. apply emite_nada. intros w. by rewrite fechas_a_mostrar_eq. Qed.

(** A step that emits [e] and returns the known value [a]. *)
Lemma emite_bind_emit_ret {A B} (e : event) (a : A) (k : A -> M B) :
  P e -> emite P (k a) -> emite P (bind (bind (emit e) (fun _ => ret a)) k).
Proof.
  intros He Hk w. destruct (Hk (tras [e] w)) as (evs & Htr & HP).
  exists (e :: evs). split; [|by constructor].
  unfold bind, emit, ret. simpl. fold (tras [e] w).
  rewrite Htr. unfold tras. simpl. by rewrite <- app_assoc.
Qed.

Lemma emite_nuevos {A} (m : M A) (w : World) :
  emite P m -> Forall P (nuevos w (snd (m w))).
Proof.
  intros Hm. destruct (Hm w) as (evs & Htr & HP).
  unfold nuevos. by rewrite Htr, drop_app_length.
Qed.

End Emite.

(** One step of a proof that a computation only emits events in [P]. *)
Ltac emite_paso :=
  first
    [ apply emite_fechas_a_mostrar
    | apply emite_bind_emit_ret; [simpl; try done|]
    | apply emite_bind; [|intros ?]
    | apply emite_try_except; [|intros ?]
    | apply emite_cache_data; [by intros|]
    | apply emite_if
    | apply emite_emit; simpl; try done
    | apply emite_ret
    | apply emite_raise
    | apply emite_st_stop
    | apply emite_lift
    | apply emite_iloc_0
    | apply emite_iloc_last ].

(** ** How the trace of a computation starts *)

Section Prefijo.
Context (P : event -> Prop).

Lemma prefijo_nil {A} (m : M A) : emite P m -> prefijo [] m.
Proof. intros Hm w. destruct (Hm w) as (evs & Htr & _). by exists evs. Qed.

Lemma prefijo_emit_bind {A} (e : event) (pre : list event) (k : unit -> M A) :
  prefijo pre (k tt) -> prefijo (e :: pre) (bind (emit e) k).
Proof.
  intros Hk w. destruct (Hk (tras [e] w)) as (resto & Htr). exists resto.
  unfold bind, emit. simpl. fold (tras [e] w).
  rewrite Htr. unfold tras. simpl. by rewrite <- app_assoc.
Qed.

Lemma prefijo_bind_emit_ret {A B} (e : event) (a : A) (pre : list event)
    (k : A -> M B) :
  prefijo pre (k a) -> prefijo (e :: pre) (bind (bind (emit e) (fun _ => ret a)) k).
Proof.
  intros Hk w. destruct (Hk (tras [e] w)) as (resto & Htr). exists resto.
  unfold bind, emit, ret. simpl. fold (tras [e] w).
  rewrite Htr. unfold tras. simpl. by rewrite <- app_assoc.
Qed.

Lemma prefijo_bind_l {A B} (pre : list event) (m : M A) (k : A -> M B) :
  prefijo pre m -> (forall a, emite P (k a)) -> prefijo pre (bind m k).
Proof.
  intros Hm Hk w. unfold bind. destruct (Hm w) as (resto1 & Htr1).
  destruct (m w) as [[a|e|] w1]; simpl in *; [|by eauto..].
  destruct (Hk a w1) as (resto2 & Htr2 & _).
  exists (resto1 ++ resto2). by rewrite Htr2, Htr1, <- !app_assoc.
Qed.

Lemma prefijo_try_except {A} (pre : list event) (m : M A) (handles : exn -> bool)
    (h : exn -> M A) :
  prefijo pre m -> (forall e, emite P (h e)) -> prefijo pre (try_except m handles h).
Proof.
  intros Hm Hh w. unfold try_except. destruct (Hm w) as (resto1 & Htr1).
  destruct (m w) as [[a|e|] w1]; simpl in *; [by eauto| |by eauto].
  destruct (handles e); [|by eauto].
  destruct (Hh e w1) as (resto2 & Htr2 & _).
  exists (resto1 ++ resto2). by rewrite Htr2, Htr1, <- !app_assoc.
Qed.

Lemma prefijo_nuevos {A} (pre : list event) (m : M A) (w : World) :
  prefijo pre m -> exists resto, nuevos w (snd (m w)) = pre ++ resto.
Proof.
  intros Hm. destruct (Hm w) as (resto & Htr). exists resto.
  unfold nuevos. by rewrite Htr, drop_app_length.
Qed.

End Prefijo.

Section ConsultasDelTicker.
Variable upper : string -> string.
Variable yf : Provider.
Variable now : Z.
Variable ui : Inputs.

Local Abbreviation simbolo := (ticker_simbolo upper ui).
Local Abbreviation accion := (MkTicker (ticker_simbolo upper ui)).
Local Abbreviation P := (consulta_del_ticker (ticker_simbolo upper ui)).

Lemma emite_get_option_history (contract_symbol : string) :
  emite P (get_option_history yf now contract_symbol).
Proof.
  unfold get_option_history, new_Ticker, Ticker_history.
  repeat emite_paso.
Qed.

Lemma emite_mostrar_opcion tablas tipo strike_elegido :
  emite P (mostrar_opcion yf now tablas tipo strike_elegido).
Proof.
  destruct tablas as [calls puts]. unfold mostrar_opcion, mostrar_historial.
  pose proof emite_get_option_history as Hhist.
  repeat first [apply Hhist | emite_paso].
Qed.

Lemma emite_bloque_busqueda fecha tipo strike_elegido :
  emite P (bloque_busqueda yf now accion fecha tipo strike_elegido).
Proof.
  unfold bloque_busqueda, buscar_y_mostrar, get_option_dataframes,
    Ticker_option_chain.
  pose proof emite_mostrar_opcion as Hmostrar.
  repeat first [apply Hmostrar | emite_paso].
Qed.

Ltac emite_cuerpo_tac Hbloque :=
  repeat first
    [ apply Hbloque
    | emite_paso
    | match goal with
      | |- emite _ (match ?x with _ => _ end) => destruct x
      end ].

Lemma emite_cuerpo : emite P (cuerpo yf now ui simbolo).
Proof.
  unfold cuerpo, get_ticker_object, new_Ticker, comprobar_ticker, Ticker_history,
    elegir_strike, elegir_fecha, Ticker_options, elegir_tipo, boton.
  pose proof emite_bloque_busqueda as Hbloque.
  emite_cuerpo_tac Hbloque.
Qed.

Lemma prefijo_cuerpo :
  prefijo [yf_Ticker simbolo; yf_history simbolo "1d"] (cuerpo yf now ui simbolo).
Proof.
  unfold cuerpo, get_ticker_object, new_Ticker, comprobar_ticker, Ticker_history,
    elegir_strike, elegir_fecha, Ticker_options, elegir_tipo, boton.
  pose proof emite_bloque_busqueda as Hbloque.
  apply prefijo_bind_emit_ret, (prefijo_bind_l P).
  - apply (prefijo_try_except P); [|intros e; emite_cuerpo_tac Hbloque].
    apply (prefijo_bind_l P); [|intros df; emite_cuerpo_tac Hbloque].
    apply prefijo_emit_bind, (prefijo_nil P). emite_cuerpo_tac Hbloque.
  - intros precio_actual. emite_cuerpo_tac Hbloque.
Qed.

Lemma emite_script : emite P (script upper yf now ui).
Proof.
  unfold script.
  pose proof emite_cuerpo as Hcuerpo.
  repeat first [apply Hcuerpo | emite_paso].
Qed.


Lemma prefijo_script :
  truthy simbolo = true ->
  prefijo [st_set_page_config; st_title; st_text_input;
           yf_Ticker simbolo; yf_history simbolo "1d"] (script upper yf now ui).
Proof.
  intros Htruthy. unfold script. rewrite Htruthy.
  do 3 apply prefijo_emit_bind.
  apply (prefijo_bind_l P); [apply prefijo_cuerpo|].
  intros _. repeat emite_paso.
Qed.

(** The ticker check lets out what the history lookup raises, an
    [IndexError] apart. *)
Lemma lanza_solo_comprobar_ticker :
  lanza_solo (fallo_de_consulta yf simbolo) (comprobar_ticker yf simbolo accion).
Proof.
  unfold comprobar_ticker, Ticker_history.
  apply (lanza_solo_try_except _
           (fun e => provider_history yf simbolo "1d" = Err e
                     \/ is_IndexError e = true)).
  - apply lanza_solo_bind; [|intros df; by apply lanza_solo_iloc_last; right].
    apply lanza_solo_bind; [apply lanza_solo_emit|intros _].
    apply lanza_solo_lift. by left.
  - intros e [Hhist|Hindex] Hhandles; [by left|congruence].
  - intros e. repeat lanza_paso.
Qed.

Lemma lanza_solo_elegir_fecha :
  lanza_solo (fallo_de_consulta yf simbolo) (elegir_fecha yf ui simbolo accion).
Proof.
  unfold elegir_fecha, Ticker_options.
  apply lanza_solo_bind; [apply lanza_solo_emit|intros _].
  apply lanza_solo_bind; [apply lanza_solo_bind; [apply lanza_solo_emit|intros _]|].
  - apply lanza_solo_lift. by right.
  - intros todas. repeat lanza_paso.
Qed.

(** An exception that ends the run comes from one of the two lookups
    made before the search block. *)
Lemma lanza_solo_script :
  lanza_solo (fallo_de_consulta yf simbolo) (script upper yf now ui).
Proof.
  unfold script, cuerpo, get_ticker_object, new_Ticker, elegir_strike,
    elegir_tipo, boton, bloque_busqueda.
  pose proof lanza_solo_comprobar_ticker as Hcheck.
  pose proof lanza_solo_elegir_fecha as Hfecha.
  repeat first
    [ apply Hcheck
    | apply Hfecha
    | lanza_paso
    | match goal with
      | |- lanza_solo _ (match ?x with _ => _ end) => destruct x
      end ].
Qed.

End ConsultasDelTicker.

(* ================================================================= *)
(** * The ticker (lines 43-53) *)

(** C4.  When the one-day price history of the ticker is empty, the run
    shows the error message and stops there: the error is the last event
    of the run, nothing after the check is rendered or fetched, and the
    stores are left as they were. *)
Theorem invalid_ticker_halts upper yf now ui w :
  truthy (ticker_simbolo upper ui) = true ->
  provider_history yf (ticker_simbolo upper ui) "1d" = Ok [] ->
  script upper yf now ui w
  = (Stopped,
     tras [st_set_page_config; st_title; st_text_input;
           yf_Ticker (ticker_simbolo upper ui);
           yf_history (ticker_simbolo upper ui) "1d";
           st_error (msg_ticker_no_valido (ticker_simbolo upper ui))] w).
Proof.
  intros Htruthy Hhist.
  unfold script. rewrite Htruthy. ejecutar.
  rewrite Hhist. simpl. by trazas.
Qed.

(** The ticker "zzz" has no price history. *)
Lemma invalid_ticker_halts_witness :
  provider_history Demo.yf "ZZZ" "1d" = Ok []
  /\ script Demo.upper Demo.yf 0 (Demo.entrada "zzz" 200 true) Demo.vacio
     = (Stopped,
        tras [st_set_page_config; st_title; st_text_input;
              yf_Ticker "ZZZ"; yf_history "ZZZ" "1d";
              st_error (msg_ticker_no_valido "ZZZ")] Demo.vacio).
Proof.
  split; [reflexivity|].
  apply (invalid_ticker_halts Demo.upper Demo.yf 0
           (Demo.entrada "zzz" 200 true) Demo.vacio); reflexivity.
Defined.

(** C9.  The run looks the ticker up under the uppercased text only:
    every one-day history, expiration-date and option-chain lookup of
    the run carries [upper texto], the run opens the ticker object and
    its price history under that symbol, and a run given another text
    with the same uppercase form is the same run. *)
Theorem ticker_is_uppercased upper yf now ui w :
  let simbolo := upper (texto_ticker ui) in
  Forall (consulta_del_ticker simbolo) (nuevos w (snd (script upper yf now ui w)))
  /\ (truthy simbolo = true ->
      exists resto,
        nuevos w (snd (script upper yf now ui w))
        = [st_set_page_config; st_title; st_text_input;
           yf_Ticker simbolo; yf_history simbolo "1d"] ++ resto)
  /\ (forall texto',
        upper texto' = simbolo ->
        script upper yf now (con_texto texto' ui) w = script upper yf now ui w).
Proof.
  intros simbolo. split_and!.
  - apply emite_nuevos, emite_script.
  - intros Htruthy. by apply prefijo_nuevos, prefijo_script.
  - intros texto' Hupper. unfold script, ticker_simbolo. simpl.
    fold simbolo. by rewrite Hupper.
Qed.

(** "aapl" and "AAPL" are the same run. *)
Lemma ticker_is_uppercased_witness :
  script Demo.upper Demo.yf 0 (Demo.entrada "aapl" 200 true) Demo.vacio
  = script Demo.upper Demo.yf 0 (Demo.entrada "AAPL" 200 true) Demo.vacio.
Proof.
  apply (proj2 (proj2 (ticker_is_uppercased Demo.upper Demo.yf 0
                         (Demo.entrada "AAPL" 200 true) Demo.vacio))).
  reflexivity.
Defined.

(* ================================================================= *)
(** * No expiration dates (lines 71-74 and 92) *)

(** C10.  When a ticker with prices has no expiration dates, the date
    section warns and chooses [None]; the button, pressed or not, then
    runs nothing; and the whole run fetches no option chain, shows no
    result and leaves the stores as they were. *)
Theorem no_dates_no_lookup upper yf now ui w rows precio_actual :
  let simbolo := ticker_simbolo upper ui in
  truthy simbolo = true ->
  provider_history yf simbolo "1d" = Ok rows ->
  last (map Close rows) = Some precio_actual ->
  provider_options yf simbolo = Ok [] ->
  (forall w',
     elegir_fecha yf ui simbolo (MkTicker simbolo) w'
     = (Normal None,
        tras [st_subheader ElegirVencimiento; yf_options simbolo;
              st_warning (msg_sin_opciones simbolo)] w'))
  /\ (forall strike_elegido tipo w',
        boton yf now ui simbolo (MkTicker simbolo) strike_elegido None tipo w'
        = (Normal tt, tras [st_button] w'))
  /\ script upper yf now ui w
     = (Normal tt,
        tras [st_set_page_config; st_title; st_text_input; yf_Ticker simbolo;
              yf_history simbolo "1d";
              st_success (msg_precio_cierre simbolo precio_actual);
              st_columns 3; st_subheader ElegirStrike;
              st_number_input precio_actual;
              st_selectbox_strike (strikes_disponibles (valor_strike ui)) 10;
              st_subheader ElegirVencimiento; yf_options simbolo;
              st_warning (msg_sin_opciones simbolo);
              st_subheader ElegirTipo; st_selectbox_tipo ["Call"; "Put"]%string;
              st_button; st_markdown; st_write] w).
Proof.
  intros simbolo Htruthy Hhist Hlast Hopts. split_and!.
  - intros w'. ejecutar. fold simbolo. rewrite Hopts. simpl. by trazas.
  - intros strike_elegido tipo w'. ejecutar. by rewrite andb_false_r.
  - unfold script. fold simbolo. rewrite Htruthy. ejecutar.
    rewrite Hhist. simpl. rewrite Hlast. simpl. rewrite Hopts. simpl.
    rewrite andb_false_r. by trazas.
Qed.

(** SINOPC has prices and no options; the button is pressed. *)
Lemma no_dates_no_lookup_witness :
  script Demo.upper Demo.yf 0 (Demo.entrada "sinopc" 10 true) Demo.vacio
  = (Normal tt,
     tras [st_set_page_config; st_title; st_text_input; yf_Ticker "SINOPC";
           yf_history "SINOPC" "1d"; st_success (msg_precio_cierre "SINOPC" 10);
           st_columns 3; st_subheader ElegirStrike; st_number_input 10;
           st_selectbox_strike (strikes_disponibles 10) 10;
           st_subheader ElegirVencimiento; yf_options "SINOPC";
           st_warning (msg_sin_opciones "SINOPC");
           st_subheader ElegirTipo; st_selectbox_tipo ["Call"; "Put"]%string;
           st_button; st_markdown; st_write] Demo.vacio).
Proof.
  apply (no_dates_no_lookup Demo.upper Demo.yf 0 (Demo.entrada "sinopc" 10 true)
           Demo.vacio [Demo.vela 10] 10); reflexivity.
Defined.

(* ================================================================= *)
(** * The selected rows and what is shown of them (lines 99-114) *)

(** Indexing with the boolean series of line 101 keeps exactly the rows
    whose strike equals the chosen one, in their order. *)
Lemma opcion_seleccionada_filter (datos : list option_row) (strike_elegido : option float) :
  opcion_seleccionada datos strike_elegido
  = List.filter (coincide strike_elegido) datos.
Proof.
  unfold opcion_seleccionada, series_eq.
  induction datos as [|r datos IH]; [done|]. simpl.
  change (match strike_elegido with
          | Some s => float_eq (strike r) s
          | None => false
          end) with (coincide strike_elegido r).
  destruct (coincide strike_elegido r); by rewrite IH.
Qed.

Lemma es_call_spec (tipo : option string) :
  es_call tipo = true <-> tipo = Some "Call"%string.
Proof.
  destruct tipo as [s|]; simpl; [|done].
  rewrite String.eqb_eq. split; [by intros ->|by intros [= ->]].
Qed.

(** C3.  The table looked at is [calls] exactly when the type is "Call",
    [puts] otherwise; the selection is the list of its rows whose strike
    equals the chosen strike; an empty selection shows the warning and
    nothing else; otherwise the selection is displayed and the four
    metrics are those of its first row. *)
Theorem displayed_rows_match_strike yf now calls puts tipo strike_elegido w :
  let datos := if es_call tipo then calls else puts in
  let seleccion := opcion_seleccionada datos strike_elegido in
  (es_call tipo = true <-> tipo = Some "Call"%string)
  /\ seleccion = List.filter (coincide strike_elegido) datos
  /\ match seleccion with
     | [] =>
         mostrar_opcion yf now (calls, puts) tipo strike_elegido w
         = (Normal tt, tras [st_warning msg_sin_coincidencia] w)
     | r :: _ =>
         mostrar_opcion yf now (calls, puts) tipo strike_elegido w
         = mostrar_historial yf now seleccion
             (tras [st_success msg_opcion_encontrada; st_dataframe seleccion;
                    st_subheader MetricasClave; st_columns 4;
                    st_metric UltimoPrecio (lastPrice r);
                    st_metric Bid (bid r);
                    st_metric Ask (ask r);
                    st_metric VolatilidadImplicita (impliedVolatility r)] w)
     end.
Proof.
  intros datos seleccion. split_and!.
  - apply es_call_spec.
  - apply opcion_seleccionada_filter.
  - unfold mostrar_opcion. fold datos. fold seleccion.
    destruct seleccion as [|r resto]; [done|].
    unfold df_empty, iloc_0, bind, emit, ret. simpl.
    f_equal. by trazas.
Qed.

(* ================================================================= *)
(** * The price history of the contract (lines 29-38 and 117-129) *)

(** C5.  The cached history lookup always returns a table: it neither
    raises nor stops.  When the fetch is made and raises, an empty table
    is returned (and stored).  Given the returned table, the display
    shows the warning when it is empty and the line chart of its Close
    column otherwise. *)
Theorem history_failure_is_empty_table yf now contract_symbol w :
  (exists history_df w',
     get_option_history yf now contract_symbol w = (Normal history_df, w'))
  /\ (forall e,
        cache_lookup now 3600 (cache_option_history w) contract_symbol = None ->
        provider_history yf contract_symbol "1mo" = Err e ->
        get_option_history yf now contract_symbol w
        = (Normal [],
           set_cache_option_history
             (<[contract_symbol := (now, [])]> (cache_option_history w))
             (tras [yf_Ticker contract_symbol; yf_history contract_symbol "1mo"] w)))
  /\ (forall r resto history_df w',
        contractSymbol r = contract_symbol ->
        get_option_history yf now contract_symbol
          (tras [st_subheader HistorialPrecio] w) = (Normal history_df, w') ->
        mostrar_historial yf now (r :: resto) w
        = (Normal tt,
           tras [if df_empty history_df then st_warning msg_sin_historial
                 else st_line_chart (map Close history_df)] w')).
Proof.
  split_and!.
  - unfold get_option_history, cache_data.
    destruct (cache_lookup now 3600 (cache_option_history w) contract_symbol)
      as [cached|]; [by eauto|].
    unfold new_Ticker, Ticker_history, try_except, bind, emit, ret. simpl.
    destruct (provider_history yf contract_symbol "1mo"); simpl; by eauto.
  - intros e Hmiss Hfetch.
    unfold get_option_history, cache_data. rewrite Hmiss.
    unfold new_Ticker, Ticker_history, try_except, bind, emit, ret. simpl.
    rewrite Hfetch. simpl. unfold set_cache_option_history. simpl.
    by trazas.
  - intros r resto history_df w' Hsym Hrun.
    unfold mostrar_historial, iloc_0, bind, emit, ret. simpl.
    fold (tras [st_subheader HistorialPrecio] w). rewrite Hsym, Hrun.
    by destruct history_df.
Qed.

(** The history of the MSFT contract cannot be fetched: an empty table
    comes back and the warning is shown. *)
Lemma history_failure_is_empty_table_witness :
  get_option_history Demo.yf 0 "MSFT250117C00200000" Demo.vacio
  = (Normal [],
     set_cache_option_history (<["MSFT250117C00200000"%string := (0%Z, [])]> ∅)
       (tras [yf_Ticker "MSFT250117C00200000";
              yf_history "MSFT250117C00200000" "1mo"] Demo.vacio))
  /\ mostrar_historial Demo.yf 0 [Demo.msft_200] Demo.vacio
     = (Normal tt,
        tras [st_warning msg_sin_historial]
          (set_cache_option_history
             (<["MSFT250117C00200000"%string := (0%Z, [])]> ∅)
             (tras [st_subheader HistorialPrecio;
                    yf_Ticker "MSFT250117C00200000";
                    yf_history "MSFT250117C00200000" "1mo"] Demo.vacio))).
Proof.
  destruct (history_failure_is_empty_table Demo.yf 0 "MSFT250117C00200000" Demo.vacio)
    as (_ & Hfail & Hshow).
  split.
  - apply (Hfail Demo.sin_red); reflexivity.
  - apply (Hshow Demo.msft_200 [] [] _ eq_refl). reflexivity.
Defined.

(* ================================================================= *)
(** * The catch-all around the search (lines 95-133) *)




(** C6.  Whatever the provider does, the block ends normally: nothing
    raised inside it gets out.  When its body raises [e], the block shows
    the message of [e] as an error and ends there; the handler does so
    for any body put under it.  So a run that ends with an exception got
    it from a lookup made before the block: the one-day history or the
    expiration dates. *)
Theorem search_block_catches_all yf now accion fecha tipo strike_elegido w :
  (exists w',
     bloque_busqueda yf now accion fecha tipo strike_elegido w = (Normal tt, w'))
  /\ (forall e w1,
        buscar_y_mostrar yf now accion fecha tipo strike_elegido w = (Raised e, w1) ->
        bloque_busqueda yf now accion fecha tipo strike_elegido w
        = (Normal tt, tras [st_error (msg_error_opcion (exn_msg e))] w1))
  /\ (forall (m : M unit) w0 e w',
        try_except m is_Exception
          (fun e => emit (st_error (msg_error_opcion (exn_msg e)))) w0
        <> (Raised e, w'))
  /\ (forall upper ui w0 e w',
        script upper yf now ui w0 = (Raised e, w') ->
        fallo_de_consulta yf (ticker_simbolo upper ui) e).
Proof.
  split_and!.
  3: { intros m w0 e w' Hrun.
       eapply (lanza_solo_catch_all (fun _ => False)); [|exact Hrun].
       intros e0. apply lanza_solo_emit. }
  3: { intros upper ui w0 e w'. apply lanza_solo_script. }
  all: unfold bloque_busqueda, try_except.
  all: pose proof (sin_stop_buscar_y_mostrar yf now accion fecha tipo strike_elegido w)
    as Hstop.
  all: destruct (buscar_y_mostrar yf now accion fecha tipo strike_elegido w)
    as [[[]|e|] w1] eqn:Hrun; simpl.
  - by exists w1.
  - by eexists.
  - by destruct (Hstop w1).
  - intros e w2 [=].
  - by intros e' w2 [= <- <-].
  - by destruct (Hstop w1).
Qed.

(** The chain of SINCAD cannot be fetched: the provider's message is
    shown. *)
Lemma search_block_catches_all_witness :
  bloque_busqueda Demo.yf 0 (MkTicker "SINCAD") "2025-01-17"
    (Some "Call"%string) (Some 10%float) Demo.vacio
  = (Normal tt,
     tras [yf_option_chain "SINCAD" "2025-01-17";
           st_error (msg_error_opcion "Expiration not found")] Demo.vacio).
Proof.
  destruct (search_block_catches_all Demo.yf 0 (MkTicker "SINCAD") "2025-01-17"
              (Some "Call"%string) (Some 10%float) Demo.vacio) as (_ & Hraise & _).
  rewrite (Hraise (ValueError "Expiration not found")
             (tras [yf_option_chain "SINCAD" "2025-01-17"] Demo.vacio));
    reflexivity.
Defined.

(* ================================================================= *)
(** * The two cached lookups (lines 19-38) *)

Section Cache.
Context {V : Type}.
Variables (get : World -> cache V) (set : cache V -> World -> World).
Hypothesis get_set : forall c w, get (set c w) = c.

(** A stored value younger than [ttl] is returned without running the
    function. *)
Lemma cache_data_hit now ttl key (func : M V) w v :
  cache_lookup now ttl (get w) key = Some v ->
  cache_data now get set ttl key func w = (Normal v, w).
Proof. intros Hhit. unfold cache_data. by rewrite Hhit. Qed.

(** What a call stores is found by the calls of the next [ttl] seconds. *)
Lemma cache_lookup_insert now now' ttl key (v : V) (c : cache V) :
  (now' < now + ttl)%Z ->
  cache_lookup now' ttl (<[key := (now, v)]> c) key = Some v.
Proof.
  intros Hfresh. unfold cache_lookup. rewrite lookup_insert_eq.
  by destruct (Z.ltb_spec now' (now + ttl)); [|lia].
Qed.

(** A call that ran the function is repeated, within [ttl], by returning
    what it returned: the function does not run again, whatever it is. *)
Lemma cache_data_twice now now' ttl key (func func' : M V) w v w1 :
  cache_lookup now ttl (get w) key = None ->
  cache_data now get set ttl key func w = (Normal v, w1) ->
  (now' < now + ttl)%Z ->
  cache_data now' get set ttl key func' w1 = (Normal v, w1).
Proof using get_set.
  intros Hmiss Hrun Hfresh. unfold cache_data in Hrun. rewrite Hmiss in Hrun.
  destruct (func w) as [[v0|e|] w0]; [|done..].
  injection Hrun as <- <-.
  apply cache_data_hit. rewrite get_set. by apply cache_lookup_insert.
Qed.

End Cache.

(** X1.  The history lookup is memoized under its contract symbol: a
    call that fetched is repeated, for the next 3600 seconds, by
    returning the same table without fetching, whatever the provider
    would answer then. *)
Theorem history_lookup_memoized yf yf' now now' contract_symbol w history_df w1 :
  cache_lookup now 3600 (cache_option_history w) contract_symbol = None ->
  get_option_history yf now contract_symbol w = (Normal history_df, w1) ->
  (now' < now + 3600)%Z ->
  get_option_history yf' now' contract_symbol w1 = (Normal history_df, w1).
Proof. by apply cache_data_twice. Qed.

(** Fetched at time 0, the history of the AAPL contract is served from
    the store at time 3599. *)
Lemma history_lookup_memoized_witness :
  get_option_history Demo.yf 3599 "AAPL250117C00200000"
    (snd (get_option_history Demo.yf 0 "AAPL250117C00200000" Demo.vacio))
  = (Normal [Demo.vela 30; Demo.vela 31.5],
     snd (get_option_history Demo.yf 0 "AAPL250117C00200000" Demo.vacio)).
Proof.
  apply (history_lookup_memoized Demo.yf Demo.yf 0 3599 "AAPL250117C00200000"
           Demo.vacio); [reflexivity|reflexivity|lia].
Defined.

(** X2.  The chain lookup is memoized under its date alone: a call that
    fetched is repeated, for the next 3600 seconds, by returning the same
    tables to a call with the same date, for any ticker. *)
Theorem chain_lookup_memoized_by_date
    yf yf' now now' accion accion' fecha w tablas w1 :
  cache_lookup now 3600 (cache_option_dataframes w) fecha = None ->
  get_option_dataframes yf now accion fecha w = (Normal tablas, w1) ->
  (now' < now + 3600)%Z ->
  get_option_dataframes yf' now' accion' fecha w1 = (Normal tablas, w1).
Proof. by apply cache_data_twice. Qed.

(** Fetched for AAPL at time 0, the tables are served to MSFT at time
    60. *)
Lemma chain_lookup_memoized_by_date_witness :
  get_option_dataframes Demo.yf 60 (MkTicker "MSFT") "2025-01-17"
    (snd (get_option_dataframes Demo.yf 0 (MkTicker "AAPL") "2025-01-17" Demo.vacio))
  = (Normal ([Demo.aapl_200; Demo.aapl_205], [Demo.aapl_200_put]),
     snd (get_option_dataframes Demo.yf 0 (MkTicker "AAPL") "2025-01-17" Demo.vacio)).
Proof.
  apply (chain_lookup_memoized_by_date Demo.yf Demo.yf 0 60
           (MkTicker "AAPL") (MkTicker "MSFT") "2025-01-17" Demo.vacio);
    [reflexivity|reflexivity|lia].
Defined.

(** C7 (the code against the claim).  AAPL is looked up at time 0 and
    MSFT one and two minutes later, with the same expiration date and
    strike.  The provider's chain for MSFT holds the MSFT contract, yet
    the second run and the third, which repeats the second's call with
    equal arguments, fetch no option chain and show the AAPL contract,
    its metrics and its chart. *)
Theorem chain_cache_ignores_ticker :
  provider_option_chain Demo.yf "MSFT" "2025-01-17" = Ok (Chain [Demo.msft_200] [])
  /\ opcion_seleccionada [Demo.msft_200] (Some 200%float) = [Demo.msft_200]
  /\ fst Demo.segunda = Normal tt
  /\ nuevos (snd Demo.primera) (snd Demo.segunda) = Demo.msft_con_tablas_de_aapl
  /\ fst Demo.tercera = Normal tt
  /\ nuevos (snd Demo.segunda) (snd Demo.tercera) = Demo.msft_con_tablas_de_aapl.
Proof. split_and!; vm_compute; reflexivity. Qed.

(* ================================================================= *)
(** * How many dates are shown, and which (lines 76-82) *)

(** Rounding a quotient up, one step at a time. *)
Lemma div_up_S (n p : nat) :
  0 < p ->
  (S n + p - 1) / p = if decide (n mod p = 0) then S ((n + p - 1) / p)
                      else (n + p - 1) / p.
Proof.
  intros Hp. pose proof (Nat.div_mod_eq n p) as Hn.
  pose proof (Nat.mod_upper_bound n p ltac:(lia)) as Hr.
  destruct (decide (n mod p = 0)) as [Hz|Hnz].
  - rewrite <- (Nat.div_unique (n + p - 1) p (n / p) (p - 1)) by lia.
    symmetry. apply (Nat.div_unique _ p _ 0); lia.
  - rewrite <- (Nat.div_unique (n + p - 1) p (S (n / p)) (n mod p - 1)) by lia.
    symmetry. apply (Nat.div_unique _ p _ (n mod p)); lia.
Qed.

Lemma div_up_exact (n p : nat) :
  0 < p -> n mod p = 0 -> (n + p - 1) / p * p = n.
Proof.
  intros Hp Hz. pose proof (Nat.div_mod_eq n p) as Hn.
  rewrite <- (Nat.div_unique (n + p - 1) p (n / p) (p - 1)) by lia. lia.
Qed.

(** The sampled positions in closed form. *)
Lemma multiplos_map (p n : nat) :
  0 < p ->
  multiplos p n = map (fun k => k * p) (seq 0 ((n + p - 1) / p)).
Proof.
  intros Hp. unfold multiplos. induction n as [|n IH].
  - by rewrite Nat.div_small by lia.
  - rewrite seq_S, filter_app, IH, div_up_S by done. simpl.
    rewrite filter_cons, filter_nil.
    destruct (decide (n mod p = 0)) as [Hz|Hnz].
    + rewrite seq_S, map_app. simpl. by rewrite div_up_exact.
    + by rewrite app_nil_r.
Qed.

Lemma length_multiplos (p n : nat) :
  0 < p -> length (multiplos p n) = (n + p - 1) / p.
Proof. intros Hp. by rewrite multiplos_map, length_map, length_seq. Qed.

Lemma length_en_posiciones {A} (xs : list A) (pos : list nat) :
  Forall (fun i => i < length xs) pos -> length (en_posiciones xs pos) = length pos.
Proof. intros Hpos. symmetry. by eapply Forall2_length, en_posiciones_lookup. Qed.

Lemma length_muestras {A} (p : nat) (xs : list A) :
  0 < p -> length (muestras p xs) = (length xs + p - 1) / p.
Proof.
  intros Hp. unfold muestras.
  rewrite length_en_posiciones by apply multiplos_lt. by apply length_multiplos.
Qed.

Lemma paso_de_pos (n : nat) : 0 < paso_de n.
Proof. unfold paso_de. lia. Qed.

(** More than 10 remaining dates give at least 10 samples. *)
Lemma muestras_suficientes (n : nat) :
  10 <= n -> 10 <= (n + paso_de n - 1) / paso_de n.
Proof.
  intros Hn. pose proof (paso_de_pos n) as Hp.
  apply Nat.div_le_lower_bound; [lia|].
  unfold paso_de in *. pose proof (Nat.Div0.mul_div_le n 10).
  destruct (Nat.max_spec 1 (n / 10)) as [[? ->]|[? ->]]; lia.
Qed.

(** X4.  The thinned list holds [min n 20] of the [n] dates: everything
    up to 20 dates, exactly 20 beyond. *)
Theorem thinning_length (todas : list string) (w : World) :
  exists mostradas,
    fechas_a_mostrar todas w = (Normal mostradas, w)
    /\ length mostradas = Nat.min (length todas) 20.
Proof.
  exists (fechas_reducidas todas). split; [apply fechas_a_mostrar_eq|].
  unfold fechas_reducidas.
  rewrite length_app, !length_take, length_muestras by apply paso_de_pos.
  rewrite length_drop.
  destruct (Nat.le_gt_cases 20 (length todas)) as [Hge|Hlt].
  - pose proof (muestras_suficientes (length todas - 10) ltac:(lia)) as Hsuf.
    revert Hsuf. generalize ((length todas - 10 + paso_de (length todas - 10) - 1)
                             / paso_de (length todas - 10)). lia.
  - destruct (Nat.le_gt_cases (length todas) 10) as [Hle|Hgt].
    + replace (length todas - 10) with 0 by lia.
      change ((0 + paso_de 0 - 1) / paso_de 0) with 0. lia.
    + replace (paso_de (length todas - 10)) with 1; [rewrite Nat.div_1_r; lia|].
      unfold paso_de. rewrite Nat.div_small by lia. done.
Qed.

Lemma Forall2_functional {A B} (R : A -> B -> Prop) (l : list A) (k1 k2 : list B) :
  (forall x y1 y2, R x y1 -> R x y2 -> y1 = y2) ->
  Forall2 R l k1 -> Forall2 R l k2 -> k1 = k2.
Proof.
  intros Hfun H1. revert k2.
  induction H1 as [|x y1 l k1 Hxy1 _ IH]; intros k2 H2.
  - by apply Forall2_nil_inv_l in H2.
  - apply Forall2_cons_inv_l in H2 as (y2 & k2' & Hxy2 & H2 & ->).
    f_equal; [by eapply Hfun|by apply IH].
Qed.

(** Reading a list at all its positions gives the list. *)
Lemma en_posiciones_seq {A} (xs : list A) :
  en_posiciones xs (seq 0 (length xs)) = xs.
Proof.
  apply (Forall2_functional (fun i x => xs !! i = Some x) (seq 0 (length xs))).
  - congruence.
  - apply en_posiciones_lookup, Forall_forall. intros i Hi%elem_of_seq. lia.
  - apply Forall2_same_length_lookup. split; [by rewrite length_seq|].
    intros i j x Hj Hx. by apply lookup_seq in Hj as [-> _].
Qed.

Lemma multiplos_1 (n : nat) : multiplos 1 n = seq 0 n.
Proof.
  rewrite multiplos_map by lia. replace (n + 1 - 1) with n by lia.
  rewrite Nat.div_1_r. rewrite <- (map_id (seq 0 n)) at 2.
  apply map_ext. intros k. lia.
Qed.

Lemma muestras_1 {A} (xs : list A) : muestras 1 xs = xs.
Proof. unfold muestras. by rewrite multiplos_1, en_posiciones_seq. Qed.

Lemma take_take_drop {A} (l : list A) (i j : nat) :
  take i l ++ take j (drop i l) = take (i + j) l.
Proof.
  rewrite <- (take_drop i (take (i + j) l)).
  rewrite take_take, Nat.min_l by lia. by rewrite take_drop_commute.
Qed.

(** X5.  With fewer than 30 dates the stride is 1 and the thinned list
    is the first 20 dates: every date up to 20, and from 21 to 29 dates
    the ones after the twentieth are left out. *)
Theorem thinning_under_30 (todas : list string) (w : World) :
  length todas < 30 ->
  fechas_a_mostrar todas w = (Normal (take 20 todas), w).
Proof.
  intros Hn. rewrite fechas_a_mostrar_eq. do 2 f_equal.
  unfold fechas_reducidas.
  replace (paso_de (length (drop 10 todas))) with 1.
  - rewrite muestras_1. apply (take_take_drop todas 10 10).
  - rewrite length_drop. unfold paso_de.
    pose proof (Nat.Div0.div_lt_upper_bound (length todas - 10) 10 2). lia.
Qed.

(** Twenty-five dates: the first twenty are shown. *)
Lemma thinning_under_30_witness :
  fechas_a_mostrar Demo.fechas_largas Demo.vacio
  = (Normal (take 20 Demo.fechas_largas), Demo.vacio).
Proof. apply thinning_under_30. vm_compute. lia. Defined.

(** With 20 dates or more, the positions read are the first ten and then
    ten at the stride. *)
Lemma posiciones_mostradas_20 (n : nat) :
  20 <= n ->
  posiciones_mostradas n
  = seq 0 10 ++ map (fun k => 10 + k * paso_de (n - 10)) (seq 0 10).
Proof.
  intros Hn. unfold posiciones_mostradas.
  rewrite Nat.min_l by lia. f_equal.
  rewrite multiplos_map by apply paso_de_pos.
  rewrite <- fmap_take, take_seq.
  rewrite Nat.min_l by (apply muestras_suficientes; lia).
  by rewrite <- list_fmap_compose.
Qed.

(** X6.  With 20 dates or more, the entry at position [10 + k] of the
    thinned list, for [k < 10], is the date at position
    [10 + k * max 1 ((n - 10) / 10)] of the input. *)
Theorem thinning_far_dates (todas : list string) (w : World) (k : nat) :
  20 <= length todas -> k < 10 ->
  exists mostradas,
    fechas_a_mostrar todas w = (Normal mostradas, w)
    /\ mostradas !! (10 + k) = todas !! (10 + k * Nat.max 1 ((length todas - 10) / 10))
    /\ is_Some (mostradas !! (10 + k)).
Proof.
  intros Hn Hk. exists (fechas_reducidas todas).
  split; [apply fechas_a_mostrar_eq|].
  pose proof (posiciones_mostradas_lookup todas) as Hlook.
  rewrite posiciones_mostradas_20 in Hlook by done.
  assert ((seq 0 10 ++ map (fun k => 10 + k * paso_de (length todas - 10)) (seq 0 10))
            !! (10 + k) = Some (10 + k * paso_de (length todas - 10))) as Hpos.
  { rewrite lookup_app_r by (rewrite length_seq; lia).
    rewrite length_seq, list_lookup_fmap.
    replace (10 + k - 10) with k by lia. by rewrite lookup_seq_lt. }
  destruct (Forall2_lookup_l _ _ _ _ _ Hlook Hpos) as (x & Hx & Htodas).
  rewrite Hx. by split; [|eexists].
Qed.

(** Forty dates: the stride is 3 and the last entry shown is date 37. *)
Lemma thinning_far_dates_witness :
  exists mostradas,
    fechas_a_mostrar Casos.fechas_40 Demo.vacio = (Normal mostradas, Demo.vacio)
    /\ mostradas !! 19 = Some "37"%string.
Proof.
  destruct (thinning_far_dates Casos.fechas_40 Demo.vacio 9)
    as (mostradas & Hrun & Hk & _); [vm_compute; lia..|].
  exists mostradas. split; [done|].
  change 19 with (10 + 9). rewrite Hk. reflexivity.
Defined.

(** X7.  With more than 20 distinct dates the last date of the provider
    is never among the dates shown. *)
Theorem thinning_drops_last_date (todas : list string) (w : World) (ultima : string) :
  NoDup todas -> 20 < length todas -> last todas = Some ultima ->
  exists mostradas,
    fechas_a_mostrar todas w = (Normal mostradas, w) /\ ultima ∉ mostradas.
Proof.
  intros Hnodup Hn Hlast. exists (fechas_reducidas todas).
  split; [apply fechas_a_mostrar_eq|]. intros Hin.
  apply list_elem_of_lookup in Hin as [j Hj].
  pose proof (posiciones_mostradas_lookup todas) as Hlook.
  destruct (Forall2_lookup_r _ _ _ _ _ Hlook Hj) as (i & Hi & Htodas).
  rewrite last_lookup in Hlast.
  assert (i = Nat.pred (length todas)) as -> by by eapply NoDup_lookup.
  rewrite posiciones_mostradas_20 in Hi by lia.
  apply list_elem_of_lookup_2, elem_of_app in Hi as [Hi|Hi].
  - apply elem_of_seq in Hi. lia.
  - apply list_elem_of_fmap in Hi as (k & Hk1 & Hk%elem_of_seq).
    pose proof (Nat.Div0.mul_div_le (length todas - 10) 10) as Hdiv.
    unfold paso_de in Hk1.
    destruct (Nat.max_spec 1 ((length todas - 10) / 10)) as [[? Hmax]|[? Hmax]];
      rewrite Hmax in Hk1; nia.
Qed.

(** Forty dates: date 39 is not offered. *)
Lemma thinning_drops_last_date_witness :
  exists mostradas,
    fechas_a_mostrar Casos.fechas_40 Demo.vacio = (Normal mostradas, Demo.vacio)
    /\ "39"%string ∉ mostradas.
Proof.
  apply (thinning_drops_last_date Casos.fechas_40 Demo.vacio "39").
  - apply (bool_decide_unpack (NoDup Casos.fechas_40)). by vm_compute.
  - vm_compute. lia.
  - reflexivity.
Defined.

(* ================================================================= *)
(** * What the select boxes hand to the search *)

Lemma selectbox_elem {A} (options : list A) (index : nat) (pick : option nat) (x : A) :
  selectbox options index pick = Some x -> x ∈ options.
Proof.
  unfold selectbox. destruct (pick ≫= _) as [y|] eqn:Hpick.
  - intros [= <-]. destruct pick as [i|]; [|done]. simpl in Hpick.
    by eapply list_elem_of_lookup_2.
  - apply list_elem_of_lookup_2.
Qed.

Lemma selectbox_is_Some {A} (options : list A) (index : nat) (pick : option nat) :
  index < length options -> is_Some (selectbox options index pick).
Proof.
  intros Hindex. unfold selectbox. destruct (pick ≫= _); [by eexists|].
  by apply lookup_lt_is_Some_2.
Qed.

Lemma fechas_reducidas_sublist (todas : list string) :
  fechas_reducidas todas `sublist_of` todas.
Proof.
  apply (posiciones_sublist todas 0 (posiciones_mostradas (length todas)));
    [apply posiciones_mostradas_sorted|].
  eapply Forall2_impl; [apply posiciones_mostradas_lookup|].
  intros i x Hx. split; [lia|]. by rewrite Nat.sub_0_r.
Qed.

Lemma fechas_reducidas_head (todas : list string) :
  head (fechas_reducidas todas) = head todas.
Proof. unfold fechas_reducidas. by destruct todas. Qed.

Section Extras.
Variable upper : string -> string.
Variable yf : Provider.
Variable now : Z.
Variable ui : Inputs.

(** X8.  When the provider lists expiration dates, the date section
    offers the thinned list and returns a date the provider listed, the
    first one while the select box is untouched; it is never [None]. *)
Theorem chosen_date_is_listed ticker_simbolo accion todas w :
  provider_options yf (ticker accion) = Ok todas ->
  todas <> [] ->
  exists fecha,
    elegir_fecha yf ui ticker_simbolo accion w
    = (Normal (Some fecha),
       tras [st_subheader ElegirVencimiento; yf_options (ticker accion);
             st_selectbox_fecha (fechas_reducidas todas)] w)
    /\ fecha ∈ todas
    /\ (pick_fecha ui = None -> head todas = Some fecha).
Proof.
  intros Hopts Hne.
  destruct (selectbox_is_Some (fechas_reducidas todas) 0 (pick_fecha ui))
    as [fecha Hfecha].
  { destruct todas; [done|]. unfold fechas_reducidas. simpl. lia. }
  exists fecha. split_and!.
  - unfold elegir_fecha, Ticker_options, bind, emit, ret. simpl.
    rewrite Hopts. simpl. destruct todas as [|f todas']; [done|]. simpl.
    rewrite fechas_a_mostrar_eq, Hfecha. unfold tras, set_trace. simpl.
    by rewrite <- !app_assoc.
  - eapply elem_of_sublist; [|apply fechas_reducidas_sublist].
    by eapply selectbox_elem.
  - intros Hpick. rewrite Hpick in Hfecha. unfold selectbox in Hfecha. simpl in Hfecha.
    rewrite <- fechas_reducidas_head. by rewrite head_lookup.
Qed.

(** X13.  The strike section always returns a strike, one of the 21
    candidates around the reference strike, whatever was picked. *)
Theorem chosen_strike_is_candidate precio_actual w :
  exists strike_elegido w',
    elegir_strike ui precio_actual w = (Normal (Some strike_elegido), w')
    /\ strike_elegido ∈ strikes_disponibles (valor_strike ui).
Proof.
  destruct (selectbox_is_Some (strikes_disponibles (valor_strike ui)) 10 (pick_strike ui))
    as [strike_elegido Hsel]; [simpl; lia|].
  exists strike_elegido. eexists. split.
  - unfold elegir_strike, bind, emit, ret. simpl. by rewrite Hsel.
  - by eapply selectbox_elem.
Qed.

(** ** The option-chain lookups of a run *)

Lemma emite_bind_post {A B} (P : event -> Prop) (Q : A -> Prop)
    (m : M A) (k : A -> M B) :
  emite P m -> devuelve Q m -> (forall a, Q a -> emite P (k a)) ->
  emite P (bind m k).
Proof.
  intros Hm HQ Hk w. unfold bind. destruct (Hm w) as (evs1 & Htr1 & HP1).
  specialize (HQ w).
  destruct (m w) as [[a|e|] w1]; simpl in *; [|by eauto..].
  destruct (Hk a (HQ a w1 eq_refl) w1) as (evs2 & Htr2 & HP2).
  exists (evs1 ++ evs2). split; [|by apply Forall_app].
  by rewrite Htr2, Htr1, app_assoc.
Qed.

(** The date the date section returns is one the provider listed. *)
Lemma devuelve_elegir_fecha ticker_simbolo accion :
  devuelve
    (fun fecha_elegida =>
       forall fecha, fecha_elegida = Some fecha ->
         exists todas, provider_options yf (ticker accion) = Ok todas /\ fecha ∈ todas)
    (elegir_fecha yf ui ticker_simbolo accion).
Proof.
  intros w fecha_elegida w' Hrun fecha ->.
  unfold elegir_fecha, Ticker_options, bind, emit, ret in Hrun. simpl in Hrun.
  destruct (provider_options yf (ticker accion)) as [todas|e]; simpl in Hrun; [|done].
  exists todas. split; [done|].
  destruct todas as [|f todas']; simpl in Hrun; [done|].
  rewrite fechas_a_mostrar_eq in Hrun. injection Hrun as Hsel _.
  eapply elem_of_sublist; [|apply fechas_reducidas_sublist].
  by eapply selectbox_elem.
Qed.

Lemma emite_elegir_fecha (P : event -> Prop) ticker_simbolo accion :
  (forall e, es_de_busqueda e = false -> P e) ->
  emite P (elegir_fecha yf ui ticker_simbolo accion).
Proof.
  intros HP. unfold elegir_fecha, Ticker_options.
  repeat first [emite_paso | apply HP; done].
Qed.

Local Abbreviation simbolo := (ticker_simbolo upper ui).
Local Abbreviation P := (consulta_de_cadena yf ui (ticker_simbolo upper ui)).

Lemma emite_bloque_busqueda_listada fecha tipo strike_elegido :
  P (yf_option_chain simbolo fecha) ->
  emite P (bloque_busqueda yf now (MkTicker simbolo) fecha tipo strike_elegido).
Proof.
  intros Hfecha.
  unfold bloque_busqueda, buscar_y_mostrar, get_option_dataframes,
    Ticker_option_chain.
  apply emite_try_except; [|intros e; repeat emite_paso].
  apply emite_bind; [repeat emite_paso|].
  intros [calls puts]. unfold mostrar_opcion, mostrar_historial, get_option_history,
    new_Ticker, Ticker_history.
  repeat emite_paso.
Qed.

Lemma emite_boton_listada strike_elegido fecha_elegida tipo :
  (forall fecha, fecha_elegida = Some fecha ->
     exists todas, provider_options yf simbolo = Ok todas /\ fecha ∈ todas) ->
  emite P (boton yf now ui simbolo (MkTicker simbolo) strike_elegido fecha_elegida tipo).
Proof.
  intros Hlistada. unfold boton. apply emite_bind_emit_ret; [done|].
  destruct (boton_buscar ui) eqn:Hpulsado; [|apply emite_ret].
  destruct fecha_elegida as [fecha|]; [|apply emite_ret]. simpl.
  apply emite_if; [|apply emite_ret].
  apply emite_bind; [by apply emite_emit|intros _].
  apply emite_bloque_busqueda_listada. simpl. eauto.
Qed.

(** X9.  Every option-chain lookup of a run is made for the ticker of
    the run, after the button was pressed, and with an expiration date
    the provider listed for that ticker in the same run. *)
Theorem chain_fetched_only_for_listed_date w :
  Forall (consulta_de_cadena yf ui (ticker_simbolo upper ui))
    (nuevos w (snd (script upper yf now ui w))).
Proof.
  apply emite_nuevos.
  unfold script, cuerpo, get_ticker_object, new_Ticker, comprobar_ticker,
    Ticker_history, elegir_strike, elegir_tipo.
  repeat first
    [ match goal with
      | |- emite _ (bind (elegir_fecha _ _ _ _) _) =>
          eapply emite_bind_post;
          [ by apply emite_elegir_fecha; intros []
          | apply devuelve_elegir_fecha
          | intros fecha_elegida Hlistada ]
      | |- emite _ (boton _ _ _ _ _ _ _ _) =>
          apply emite_boton_listada; exact Hlistada
      end
    | emite_paso ].
Qed.

(** ** Where a run can stop *)

Lemma bind_Stopped {A B} (m : M A) (k : A -> M B) w w' :
  bind m k w = (Stopped, w') ->
  m w = (Stopped, w') \/ exists a w1, m w = (Normal a, w1) /\ k a w1 = (Stopped, w').
Proof.
  unfold bind. destruct (m w) as [[a|e|] w1]; intros Hrun; [by eauto|done|].
  left. by injection Hrun as <-.
Qed.

Lemma emit_bind_Stopped {B} (e : event) (k : unit -> M B) w w' :
  bind (emit e) k w = (Stopped, w') -> k tt (tras [e] w) = (Stopped, w').
Proof. done. Qed.

Lemma sin_stop_fechas_a_mostrar todas : sin_stop (fechas_a_mostrar todas).
Proof. intros w w'. by rewrite fechas_a_mostrar_eq. Qed.

Lemma sin_stop_boton ticker_simbolo accion strike_elegido fecha_elegida tipo :
  sin_stop (boton yf now ui ticker_simbolo accion strike_elegido fecha_elegida tipo).
Proof.
  unfold boton, bloque_busqueda.
  apply sin_stop_bind.
  { apply sin_stop_bind; [apply sin_stop_emit|intros _; apply sin_stop_ret]. }
  intros pulsado.
  destruct (pulsado && truthy_opt fecha_elegida), fecha_elegida;
    try apply sin_stop_ret.
  apply sin_stop_bind; [apply sin_stop_emit|intros _].
  apply sin_stop_try_except; [apply sin_stop_buscar_y_mostrar|].
  intros e. apply sin_stop_emit.
Qed.

(** After the ticker check nothing stops the run. *)
Lemma sin_stop_tras_comprobar ticker_simbolo accion precio_actual :
  sin_stop
    (bind (emit (st_success (msg_precio_cierre ticker_simbolo precio_actual)))
       (fun _ => bind (emit (st_columns 3))
       (fun _ => bind (elegir_strike ui precio_actual)
       (fun strike_elegido => bind (elegir_fecha yf ui ticker_simbolo accion)
       (fun fecha_elegida => bind (elegir_tipo ui)
       (fun tipo => boton yf now ui ticker_simbolo accion strike_elegido
                      fecha_elegida tipo)))))).
Proof.
  pose proof sin_stop_boton as Hboton.
  pose proof sin_stop_fechas_a_mostrar as Hfechas.
  unfold elegir_strike, elegir_fecha, elegir_tipo, Ticker_options.
  repeat first
    [ apply Hboton | apply Hfechas
    | apply sin_stop_bind; [|intros ?]
    | apply sin_stop_if
    | apply sin_stop_emit | apply sin_stop_ret | apply sin_stop_lift ].
Qed.

(** The ticker check stops exactly on an empty history or an
    [IndexError] of the lookup, after showing the error. *)
Lemma comprobar_ticker_Stopped ticker_simbolo accion w w' :
  comprobar_ticker yf ticker_simbolo accion w = (Stopped, w') ->
  (provider_history yf (ticker accion) "1d" = Ok []
   \/ exists e, provider_history yf (ticker accion) "1d" = Err e
                /\ is_IndexError e = true)
  /\ w' = tras [yf_history (ticker accion) "1d";
                st_error (msg_ticker_no_valido ticker_simbolo)] w.
Proof.
  unfold comprobar_ticker, Ticker_history, iloc_last, try_except, bind, emit, ret,
    st_stop. simpl.
  destruct (provider_history yf (ticker accion) "1d") as [rows|e]; simpl.
  - destruct (last (map Close rows)) eqn:Hlast; simpl; [done|].
    apply last_None, fmap_nil_inv in Hlast as ->.
    intros [= <-]. split; [by left|]. unfold tras, set_trace. simpl.
    by rewrite <- !app_assoc.
  - destruct (is_IndexError e) eqn:Hindex; [|done].
    intros [= <-]. split; [by eauto|]. unfold tras, set_trace. simpl.
    by rewrite <- !app_assoc.
Qed.

(** X10.  A run stops only at the ticker check: when it stops, the
    ticker is not empty, its one-day history came back empty or the
    lookup raised an [IndexError], and the error message is the last
    thing of the run. *)
Theorem stops_only_on_invalid_ticker w w' :
  script upper yf now ui w = (Stopped, w') ->
  truthy simbolo = true
  /\ (provider_history yf simbolo "1d" = Ok []
      \/ exists e, provider_history yf simbolo "1d" = Err e /\ is_IndexError e = true)
  /\ w' = tras [st_set_page_config; st_title; st_text_input; yf_Ticker simbolo;
                yf_history simbolo "1d"; st_error (msg_ticker_no_valido simbolo)] w.
Proof.
  unfold script. intros Hrun.
  do 3 apply emit_bind_Stopped in Hrun.
  apply bind_Stopped in Hrun as [Hrun|(_ & w3 & _ & Hrun)];
    [|by apply emit_bind_Stopped in Hrun].
  destruct (truthy simbolo); [split; [done|]|done].
  unfold cuerpo, get_ticker_object, new_Ticker in Hrun.
  apply bind_Stopped in Hrun as [Hrun|(accion & w4 & Haccion & Hrun)]; [done|].
  injection Haccion as <- <-.
  apply bind_Stopped in Hrun as [Hrun|(precio_actual & w5 & _ & Hrun)];
    [|by destruct (sin_stop_tras_comprobar simbolo (MkTicker simbolo) precio_actual w5 w')].
  apply comprobar_ticker_Stopped in Hrun as [Hhist ->].
  split; [done|]. unfold tras, set_trace. simpl. by rewrite <- !app_assoc.
Qed.

(** ** Runs that search nothing *)

(** X11.  A run shows only the header, the text box and the footer, and
    calls the provider for nothing, exactly when the uppercased text of
    the ticker box is empty. *)
Theorem no_ticker_no_lookup w :
  script upper yf now ui w
  = (Normal tt,
     tras [st_set_page_config; st_title; st_text_input; st_markdown; st_write] w)
  <-> truthy simbolo = false.
Proof.
  split.
  - intros Hrun. destruct (truthy simbolo) eqn:Htruthy; [|done].
    destruct (prefijo_script upper yf now ui Htruthy w) as (resto & Htr).
    rewrite Hrun in Htr. simpl in Htr. by simplify_list_eq.
  - intros Htruthy. unfold script. rewrite Htruthy.
    unfold bind, emit, ret. simpl. f_equal. unfold tras, set_trace. simpl.
    by rewrite <- !app_assoc.
Qed.

(** X12.  A run in which the button is not pressed leaves the two
    stores as they were and neither fetches an option chain or an option
    history nor shows a search result. *)
Theorem no_press_no_search w :
  boton_buscar ui = false ->
  exists evs,
    snd (script upper yf now ui w) = tras evs w
    /\ Forall (fun e => es_de_busqueda e = false) evs.
Proof.
  intros Hpulsado. unfold script.
  destruct (truthy simbolo); ejecutar; rewrite ?Hpulsado; simpl.
  2: { rewrite <- ?app_assoc. simpl. eexists. split; [reflexivity|repeat constructor]. }
  destruct (provider_history yf simbolo "1d") as [rows|e]; simpl;
    [destruct (last (map Close rows)); simpl;
       [destruct (provider_options yf simbolo) as [[|primera todas]|e0]; simpl;
          rewrite ?fechas_a_mostrar_eq; simpl|]
    |destruct (is_IndexError e); simpl].
  all: rewrite <- ?app_assoc; simpl.
  all: eexists; split; [reflexivity|repeat constructor].
Qed.

End Extras.

(** AAPL lists three dates; the first is chosen. *)
Lemma chosen_date_is_listed_witness :
  exists fecha,
    elegir_fecha Demo.yf (Demo.entrada "aapl" 200 true) "AAPL" (MkTicker "AAPL")
      Demo.vacio
    = (Normal (Some fecha),
       tras [st_subheader ElegirVencimiento; yf_options "AAPL";
             st_selectbox_fecha (fechas_reducidas Demo.fechas_aapl)] Demo.vacio)
    /\ fecha ∈ Demo.fechas_aapl
    /\ (pick_fecha (Demo.entrada "aapl" 200 true) = None ->
        head Demo.fechas_aapl = Some fecha).
Proof.
  by apply (chosen_date_is_listed Demo.yf (Demo.entrada "aapl" 200 true) "AAPL"
              (MkTicker "AAPL") Demo.fechas_aapl Demo.vacio).
Defined.

(** The run for "zzz" stops: ZZZ has an empty history. *)
Lemma stops_only_on_invalid_ticker_witness :
  truthy "ZZZ" = true
  /\ (provider_history Demo.yf "ZZZ" "1d" = Ok []
      \/ exists e, provider_history Demo.yf "ZZZ" "1d" = Err e
                   /\ is_IndexError e = true).
Proof.
  destruct (stops_only_on_invalid_ticker Demo.upper Demo.yf 0
              (Demo.entrada "zzz" 200 true) Demo.vacio
              (tras [st_set_page_config; st_title; st_text_input; yf_Ticker "ZZZ";
                     yf_history "ZZZ" "1d"; st_error (msg_ticker_no_valido "ZZZ")]
                 Demo.vacio))
    as (Htruthy & Hhist & _); [reflexivity|].
  by split.
Defined.

(** AAPL without pressing the button. *)
Lemma no_press_no_search_witness :
  exists evs,
    snd (script Demo.upper Demo.yf 0 (Demo.entrada "aapl" 200 false) Demo.vacio)
    = tras evs Demo.vacio
    /\ Forall (fun e => es_de_busqueda e = false) evs.
Proof.
  by apply (no_press_no_search Demo.upper Demo.yf 0 (Demo.entrada "aapl" 200 false)).
Defined.

(* ================================================================= *)
(** * The stores over time *)

Lemma cache_lookup_None_later {V} now now' ttl (c : cache V) key :
  cache_lookup now ttl c key = None -> (now <= now')%Z ->
  cache_lookup now' ttl c key = None.
Proof.
  unfold cache_lookup. destruct (c !! key) as [[t0 v]|]; [|done].
  destruct (Z.ltb_spec now (t0 + ttl)); [done|]. intros _ Hlater.
  by destruct (Z.ltb_spec now' (t0 + ttl)); [lia|].
Qed.

Lemma cache_lookup_expired {V} now now' ttl key (v : V) (c : cache V) :
  (now + ttl <= now')%Z ->
  cache_lookup now' ttl (<[key := (now, v)]> c) key = None.
Proof.
  intros Hlate. unfold cache_lookup. rewrite lookup_insert_eq.
  by destruct (Z.ltb_spec now' (now + ttl)); [lia|].
Qed.

(** What the history lookup does when it has to fetch. *)
Lemma get_option_history_miss yf now contract_symbol w :
  cache_lookup now 3600 (cache_option_history w) contract_symbol = None ->
  get_option_history yf now contract_symbol w
  = let history_df :=
      match provider_history yf contract_symbol "1mo" with
      | Ok df => df
      | Err _ => []
      end in
    (Normal history_df,
     set_cache_option_history
       (<[contract_symbol := (now, history_df)]> (cache_option_history w))
       (tras [yf_Ticker contract_symbol; yf_history contract_symbol "1mo"] w)).
Proof.
  intros Hmiss. unfold get_option_history, cache_data. rewrite Hmiss.
  unfold new_Ticker, Ticker_history, try_except, bind, emit, ret. simpl.
  destruct (provider_history yf contract_symbol "1mo"); simpl;
    unfold set_cache_option_history, tras, set_trace; simpl;
    by rewrite <- !app_assoc.
Qed.

(** X14.  A history fetch that raised is remembered as an empty table:
    for the next 3600 seconds the lookup returns the empty table without
    fetching, whatever the provider would answer then. *)
Theorem failed_history_is_remembered yf yf' now now' contract_symbol w e :
  cache_lookup now 3600 (cache_option_history w) contract_symbol = None ->
  provider_history yf contract_symbol "1mo" = Err e ->
  (now' < now + 3600)%Z ->
  get_option_history yf' now' contract_symbol
    (snd (get_option_history yf now contract_symbol w))
  = (Normal [], snd (get_option_history yf now contract_symbol w)).
Proof.
  intros Hmiss Hfail Hfresh.
  pose proof (get_option_history_miss yf now contract_symbol w Hmiss) as Hrun.
  rewrite Hfail in Hrun. rewrite Hrun. simpl.
  apply cache_data_hit. simpl. by apply cache_lookup_insert.
Qed.

(** The history of the MSFT contract fails at time 0; half an hour
    later the provider would answer, and the empty table is served. *)
Lemma failed_history_is_remembered_witness :
  provider_history Casos.yf_recuperado "MSFT250117C00200000" "1mo"
  = Ok [Demo.vela 221]
  /\ get_option_history Casos.yf_recuperado 1800 "MSFT250117C00200000"
       (snd (get_option_history Demo.yf 0 "MSFT250117C00200000" Demo.vacio))
     = (Normal [],
        snd (get_option_history Demo.yf 0 "MSFT250117C00200000" Demo.vacio)).
Proof.
  split; [reflexivity|].
  apply (failed_history_is_remembered Demo.yf Casos.yf_recuperado 0 1800
           "MSFT250117C00200000" Demo.vacio Demo.sin_red);
    [reflexivity|reflexivity|lia].
Defined.

(** X15.  3600 seconds after a history fetch, or later, the stored table
    is no longer used: the lookup fetches again, returns what the
    provider answers then (the empty table if it raises) and stores it
    with the new time. *)
Theorem history_refetched_after_expiry yf yf' now now' contract_symbol w :
  cache_lookup now 3600 (cache_option_history w) contract_symbol = None ->
  (now + 3600 <= now')%Z ->
  let w1 := snd (get_option_history yf now contract_symbol w) in
  let history_df :=
    match provider_history yf' contract_symbol "1mo" with
    | Ok df => df
    | Err _ => []
    end in
  get_option_history yf' now' contract_symbol w1
  = (Normal history_df,
     set_cache_option_history
       (<[contract_symbol := (now', history_df)]> (cache_option_history w1))
       (tras [yf_Ticker contract_symbol; yf_history contract_symbol "1mo"] w1)).
Proof.
  intros Hmiss Hlate w1 history_df.
  apply get_option_history_miss. unfold w1.
  rewrite (get_option_history_miss yf now contract_symbol w Hmiss). simpl.
  by apply cache_lookup_expired.
Qed.

(** Fetched at time 0, the history of the AAPL contract is fetched
    again at time 3600. *)
Lemma history_refetched_after_expiry_witness :
  trace (snd (get_option_history Demo.yf 3600 "AAPL250117C00200000"
                (snd (get_option_history Demo.yf 0 "AAPL250117C00200000"
                        Demo.vacio))))
  = [yf_Ticker "AAPL250117C00200000"; yf_history "AAPL250117C00200000" "1mo";
     yf_Ticker "AAPL250117C00200000"; yf_history "AAPL250117C00200000" "1mo"].
Proof.
  rewrite (history_refetched_after_expiry Demo.yf Demo.yf 0 3600
             "AAPL250117C00200000" Demo.vacio); [reflexivity|reflexivity|lia].
Defined.

(** X16.  A chain fetch that raised is not stored: the search shows the
    error and leaves the stores as they were, so a later lookup with the
    same date fetches again and returns what the provider answers
    then. *)
Theorem failed_chain_fetch_is_not_stored
    yf yf' now now' accion fecha tipo strike_elegido w e chain :
  cache_lookup now 3600 (cache_option_dataframes w) fecha = None ->
  provider_option_chain yf (ticker accion) fecha = Err e ->
  (now <= now')%Z ->
  provider_option_chain yf' (ticker accion) fecha = Ok chain ->
  let w1 := tras [yf_option_chain (ticker accion) fecha;
                  st_error (msg_error_opcion (exn_msg e))] w in
  bloque_busqueda yf now accion fecha tipo strike_elegido w = (Normal tt, w1)
  /\ get_option_dataframes yf' now' accion fecha w1
     = (Normal (calls chain, puts chain),
        set_cache_option_dataframes
          (<[fecha := (now', (calls chain, puts chain))]> (cache_option_dataframes w))
          (tras [yf_option_chain (ticker accion) fecha] w1)).
Proof.
  intros Hmiss Hfail Hlater Hok w1. split.
  - unfold bloque_busqueda, buscar_y_mostrar, get_option_dataframes, cache_data,
      try_except, bind. rewrite Hmiss.
    unfold Ticker_option_chain, bind, emit. simpl. rewrite Hfail. simpl.
    unfold w1, tras, set_trace. simpl. by rewrite <- !app_assoc.
  - unfold get_option_dataframes, cache_data.
    change (cache_option_dataframes w1) with (cache_option_dataframes w).
    rewrite (cache_lookup_None_later now now' _ _ _ Hmiss Hlater).
    unfold Ticker_option_chain, bind, emit, ret. simpl. rewrite Hok. simpl.
    unfold set_cache_option_dataframes, tras, set_trace. simpl.
    by rewrite <- !app_assoc.
Qed.

(** The chain of SINCAD fails at time 0 and is fetched a minute
    later. *)
Lemma failed_chain_fetch_is_not_stored_witness :
  bloque_busqueda Demo.yf 0 (MkTicker "SINCAD") "2025-01-17"
    (Some "Call"%string) (Some 10%float) Demo.vacio
  = (Normal tt,
     tras [yf_option_chain "SINCAD" "2025-01-17";
           st_error (msg_error_opcion "Expiration not found")] Demo.vacio)
  /\ fst (get_option_dataframes Casos.yf_recuperado 60 (MkTicker "SINCAD")
            "2025-01-17"
            (tras [yf_option_chain "SINCAD" "2025-01-17";
                   st_error (msg_error_opcion "Expiration not found")] Demo.vacio))
     = Normal ([Casos.sincad_10], []).
Proof.
  destruct (failed_chain_fetch_is_not_stored Demo.yf Casos.yf_recuperado 0 60
              (MkTicker "SINCAD") "2025-01-17" (Some "Call"%string) (Some 10%float)
              Demo.vacio (ValueError "Expiration not found")
              (Chain [Casos.sincad_10] []))
    as [Hfail Hretry]; [reflexivity|reflexivity|lia|reflexivity|].
  split; [exact Hfail|exact (f_equal fst Hretry)].
Defined.

Lemma get_option_dataframes_miss yf now accion fecha w :
  cache_lookup now 3600 (cache_option_dataframes w) fecha = None ->
  get_option_dataframes yf now accion fecha w
  = match provider_option_chain yf (ticker accion) fecha with
    | Ok chain =>
        (Normal (calls chain, puts chain),
         set_cache_option_dataframes
           (<[fecha := (now, (calls chain, puts chain))]> (cache_option_dataframes w))
           (tras [yf_option_chain (ticker accion) fecha] w))
    | Err e => (Raised e, tras [yf_option_chain (ticker accion) fecha] w)
    end.
Proof.
  intros Hmiss. unfold get_option_dataframes, cache_data. rewrite Hmiss.
  unfold Ticker_option_chain, bind, emit, ret. simpl.
  by destruct (provider_option_chain yf (ticker accion) fecha).
Qed.

Lemma nuevos_app (w w' : World) (evs : list event) :
  trace w' = trace w ++ evs -> nuevos w w' = evs.
Proof. intros Htr. unfold nuevos. by rewrite Htr, drop_app_length. Qed.

(** The history display when the lookup has to fetch, and when the store
    answers. *)
Lemma mostrar_historial_miss yf now r resto w :
  cache_lookup now 3600 (cache_option_history w) (contractSymbol r) = None ->
  mostrar_historial yf now (r :: resto) w
  = let history_df :=
      match provider_history yf (contractSymbol r) "1mo" with
      | Ok df => df
      | Err _ => []
      end in
    (Normal tt,
     set_cache_option_history
       (<[contractSymbol r := (now, history_df)]> (cache_option_history w))
       (tras [st_subheader HistorialPrecio; yf_Ticker (contractSymbol r);
              yf_history (contractSymbol r) "1mo";
              if df_empty history_df then st_warning msg_sin_historial
              else st_line_chart (map Close history_df)] w)).
Proof.
  intros Hmiss.
  unfold mostrar_historial. unfold bind at 1. unfold emit at 1.
  unfold bind at 1. unfold iloc_0. cbn [map head]. unfold ret at 1.
  unfold bind at 1.
  rewrite get_option_history_miss by exact Hmiss.
  cbv zeta.
  destruct (match provider_history yf (contractSymbol r) "1mo" with
            | Ok df => df
            | Err _ => []
            end) as [|vela velas];
    cbn [df_empty negb]; unfold emit, tras, set_cache_option_history, set_trace;
    cbn [trace cache_option_history cache_option_dataframes];
    by rewrite <- !app_assoc.
Qed.

Lemma mostrar_historial_hit yf now r resto w history_df :
  cache_lookup now 3600 (cache_option_history w) (contractSymbol r)
  = Some history_df ->
  mostrar_historial yf now (r :: resto) w
  = (Normal tt,
     tras [st_subheader HistorialPrecio;
           if df_empty history_df then st_warning msg_sin_historial
           else st_line_chart (map Close history_df)] w).
Proof.
  intros Hhit.
  unfold mostrar_historial. unfold bind at 1. unfold emit at 1.
  unfold bind at 1. unfold iloc_0. cbn [map head]. unfold ret at 1.
  unfold bind at 1. unfold get_option_history.
  rewrite (cache_data_hit _ _ now 3600 (contractSymbol r) _ _ history_df)
    by exact Hhit.
  destruct history_df as [|vela velas];
    cbn [df_empty negb]; unfold emit, tras, set_trace;
    cbn [trace cache_option_history cache_option_dataframes];
    by rewrite <- !app_assoc.
Qed.

Lemma mostrar_opcion_cons yf now calls puts tipo strike_elegido w r resto :
  opcion_seleccionada (if es_call tipo then calls else puts) strike_elegido
  = r :: resto ->
  mostrar_opcion yf now (calls, puts) tipo strike_elegido w
  = mostrar_historial yf now (r :: resto)
      (tras (eventos_de_seleccion (r :: resto) r) w).
Proof.
  intros Hsel. unfold mostrar_opcion. rewrite Hsel.
  unfold df_empty, iloc_0, bind, emit, ret. cbn [map head].
  f_equal. unfold tras, eventos_de_seleccion, set_trace.
  cbn [trace cache_option_history cache_option_dataframes].
  by rewrite <- !app_assoc.
Qed.

Lemma mostrar_opcion_nil yf now calls puts tipo strike_elegido w :
  opcion_seleccionada (if es_call tipo then calls else puts) strike_elegido = [] ->
  mostrar_opcion yf now (calls, puts) tipo strike_elegido w
  = (Normal tt, tras [st_warning msg_sin_coincidencia] w).
Proof. intros Hsel. unfold mostrar_opcion. by rewrite Hsel. Qed.

(** X17.  A search that ended normally from stores holding nothing live
    for it is repeated, for the next 3600 seconds, by showing the same
    things without any provider call, whatever the provider would answer
    then. *)
Theorem repeated_search_renders_same
    yf yf' now now' accion fecha tipo strike_elegido w w1 :
  cache_lookup now 3600 (cache_option_dataframes w) fecha = None ->
  (forall contract_symbol,
     cache_lookup now 3600 (cache_option_history w) contract_symbol = None) ->
  buscar_y_mostrar yf now accion fecha tipo strike_elegido w = (Normal tt, w1) ->
  (now' < now + 3600)%Z ->
  buscar_y_mostrar yf' now' accion fecha tipo strike_elegido w1
  = (Normal tt, tras (List.filter (fun e => negb (es_yf e)) (nuevos w w1)) w1).
Proof.
  intros Hmiss_df Hmiss_h Hrun Hfresh.
  unfold buscar_y_mostrar, bind in Hrun |- *.
  rewrite (get_option_dataframes_miss _ _ _ _ _ Hmiss_df) in Hrun.
  destruct (provider_option_chain yf (ticker accion) fecha) as [chain|e]; [|done].
  unfold get_option_dataframes.
  destruct (opcion_seleccionada (if es_call tipo then calls chain else puts chain)
              strike_elegido) as [|r resto] eqn:Hsel.
  - rewrite mostrar_opcion_nil in Hrun by done. injection Hrun as <-.
    rewrite (cache_data_hit _ _ now' 3600 fecha _ _ (calls chain, puts chain))
      by by apply cache_lookup_insert.
    rewrite mostrar_opcion_nil by done.
    erewrite nuevos_app.
    2: { unfold tras, set_cache_option_dataframes, set_trace.
         cbn [trace cache_option_history cache_option_dataframes].
         rewrite <- !app_assoc. reflexivity. }
    reflexivity.
  - rewrite (mostrar_opcion_cons _ _ _ _ _ _ _ _ _ Hsel) in Hrun.
    rewrite mostrar_historial_miss in Hrun by apply Hmiss_h.
    cbv zeta in Hrun. injection Hrun as <-.
    rewrite (cache_data_hit _ _ now' 3600 fecha _ _ (calls chain, puts chain))
      by by apply cache_lookup_insert.
    rewrite (mostrar_opcion_cons _ _ _ _ _ _ _ _ _ Hsel).
    erewrite mostrar_historial_hit by by apply cache_lookup_insert.
    erewrite nuevos_app.
    2: { unfold tras, set_cache_option_dataframes, set_cache_option_history,
           set_trace.
         cbn [trace cache_option_history cache_option_dataframes].
         rewrite <- !app_assoc. reflexivity. }
    cbn [List.filter app es_yf negb eventos_de_seleccion].
    destruct (match provider_history yf (contractSymbol r) "1mo" with
              | Ok df => df
              | Err _ => []
              end) as [|vela velas];
      cbn [df_empty es_yf negb];
      unfold tras at 1 2, eventos_de_seleccion, set_trace;
      cbn [trace cache_option_history cache_option_dataframes];
      by rewrite <- !app_assoc.
Qed.

(** The AAPL search of time 0, repeated ten minutes later. *)
Lemma repeated_search_renders_same_witness :
  buscar_y_mostrar Casos.yf_recuperado 600 (MkTicker "AAPL") "2025-01-17"
    (Some "Call"%string) (Some 200%float)
    (snd (buscar_y_mostrar Demo.yf 0 (MkTicker "AAPL") "2025-01-17"
            (Some "Call"%string) (Some 200%float) Demo.vacio))
  = (Normal tt,
     tras [st_success msg_opcion_encontrada; st_dataframe [Demo.aapl_200];
           st_subheader MetricasClave; st_columns 4;
           st_metric UltimoPrecio 31.5; st_metric Bid 31.25;
           st_metric Ask 31.75; st_metric VolatilidadImplicita 0.25;
           st_subheader HistorialPrecio; st_line_chart [30%float; 31.5%float]]
       (snd (buscar_y_mostrar Demo.yf 0 (MkTicker "AAPL") "2025-01-17"
               (Some "Call"%string) (Some 200%float) Demo.vacio))).
Proof.
  rewrite (repeated_search_renders_same Demo.yf Casos.yf_recuperado 0 600
             (MkTicker "AAPL") "2025-01-17" (Some "Call"%string) (Some 200%float)
             Demo.vacio
             (snd (buscar_y_mostrar Demo.yf 0 (MkTicker "AAPL") "2025-01-17"
                     (Some "Call"%string) (Some 200%float) Demo.vacio)));
    [reflexivity|reflexivity| |reflexivity|lia].
  intros contract_symbol. unfold cache_lookup, Demo.vacio.
  cbn [cache_option_history]. by rewrite lookup_empty.
Defined.

(* ================================================================= *)
(** * The footer (lines 135-136) *)

Lemma emite_cuerpo_sin_pie upper yf now ui :
  emite no_es_pie
    (if truthy (ticker_simbolo upper ui)
     then cuerpo yf now ui (ticker_simbolo upper ui) else ret tt).
Proof.
  unfold cuerpo, get_ticker_object, new_Ticker, comprobar_ticker, Ticker_history,
    elegir_strike, elegir_fecha, Ticker_options, elegir_tipo, boton,
    bloque_busqueda, buscar_y_mostrar, get_option_dataframes, Ticker_option_chain.
  repeat first
    [ emite_paso
    | match goal with
      | |- no_es_pie _ => by split
      | |- emite _ (match ?x with _ => _ end) => destruct x
      | |- emite _ (mostrar_opcion _ _ _ _ _) =>
          unfold mostrar_opcion, mostrar_historial, get_option_history,
            new_Ticker, Ticker_history
      end ].
Qed.

(** A run of the script is the three opening calls, the body, and the two
    closing calls when the body ends normally. *)
Lemma script_run upper yf now ui w :
  script upper yf now ui w
  = match (if truthy (ticker_simbolo upper ui)
           then cuerpo yf now ui (ticker_simbolo upper ui) else ret tt)
          (tras [st_set_page_config; st_title; st_text_input] w) with
    | (Normal _, w4) => (Normal tt, tras [st_markdown; st_write] w4)
    | (Raised e, w4) => (Raised e, w4)
    | (Stopped, w4) => (Stopped, w4)
    end.
Proof.
  unfold script. unfold bind at 1. unfold emit at 1.
  unfold bind at 1. unfold emit at 1. unfold bind at 1. unfold emit at 1.
  unfold bind at 1.
  replace (set_trace _ (set_trace _ (set_trace _ w)))
    with (tras [st_set_page_config; st_title; st_text_input] w)
    by (unfold tras, set_trace;
        cbn [trace cache_option_history cache_option_dataframes];
        by rewrite <- !app_assoc).
  destruct ((if truthy (ticker_simbolo upper ui)
             then cuerpo yf now ui (ticker_simbolo upper ui) else ret tt) _)
    as [[[]|e|] w4]; [|done|done].
  unfold bind, emit, tras, set_trace.
  cbn [trace cache_option_history cache_option_dataframes].
  by rewrite <- !app_assoc.
Qed.

(** X18.  The footer is the last thing of a run exactly when the run
    ends normally: a run that stops at the ticker check or ends with an
    exception renders no footer. *)
Theorem footer_iff_normal upper yf now ui w :
  last (nuevos w (snd (script upper yf now ui w))) = Some st_write
  <-> fst (script upper yf now ui w) = Normal tt.
Proof.
  rewrite script_run.
  destruct (emite_cuerpo_sin_pie upper yf now ui
              (tras [st_set_page_config; st_title; st_text_input] w))
    as (evs & Htr & Hevs).
  destruct ((if truthy (ticker_simbolo upper ui)
             then cuerpo yf now ui (ticker_simbolo upper ui) else ret tt) _)
    as [[[]|e|] w4]; cbn [fst snd] in *.
  - erewrite (nuevos_app _ _ ([st_set_page_config; st_title; st_text_input]
                              ++ evs ++ [st_markdown; st_write])).
    2: { unfold tras, set_trace in *.
         cbn [trace cache_option_history cache_option_dataframes] in *.
         rewrite Htr, <- !app_assoc. reflexivity. }
    split; [done|]. intros _.
    change [st_markdown; st_write] with ([st_markdown] ++ [st_write]).
    by rewrite !app_assoc, last_snoc.
  - erewrite (nuevos_app _ _ ([st_set_page_config; st_title; st_text_input]
                              ++ evs)).
    2: { unfold tras, set_trace in *.
         cbn [trace cache_option_history cache_option_dataframes] in *.
         rewrite Htr, <- !app_assoc. reflexivity. }
    split; [|done]. intros Hlast.
    apply last_Some_elem_of, elem_of_app in Hlast as [Hlast|Hlast].
    + by repeat (apply elem_of_cons in Hlast as [|Hlast]; [done|]);
        apply elem_of_nil in Hlast.
    + eapply Forall_forall in Hevs; [|done]. by destruct Hevs.
  - erewrite (nuevos_app _ _ ([st_set_page_config; st_title; st_text_input]
                              ++ evs)).
    2: { unfold tras, set_trace in *.
         cbn [trace cache_option_history cache_option_dataframes] in *.
         rewrite Htr, <- !app_assoc. reflexivity. }
    split; [|done]. intros Hlast.
    apply last_Some_elem_of, elem_of_app in Hlast as [Hlast|Hlast].
    + by repeat (apply elem_of_cons in Hlast as [|Hlast]; [done|]);
        apply elem_of_nil in Hlast.
    + eapply Forall_forall in Hevs; [|done]. by destruct Hevs.
Qed.
